(** * scripts/hyper_parameter_tuning.py: the train / test / objective cycle

    A shallow embedding of the three functions of the script.  The
    script is a chain of calls into PyTorch, torchvision, wandb and
    optuna; those collaborators are gathered in one interface record
    ([Torch]) and the script's own control flow, its Python arithmetic
    and its calls to the experiment tracker are written out.

    - Python floats are IEEE binary64 values ([spec_float] with
      precision 53 and exponent bound 1024), Python ints are [Z].
    - The objects the script mutates in place (the model, its [.grad]
      buffers, the optimizer, the scheduler, the global generator) live
      in one [State] record that every function threads.
    - What the script writes (stdout lines, wandb calls) is an output
      stream: every computation returns the events it emitted, in
      order, next to its result.
    - A Python exception is the [Raise] result; the state reached and
      the events emitted before it are kept. *)

From Stdlib Require Import ZArith List Bool Lia Floats.SpecFloat.
From stdpp Require Import gmap strings list.

Local Open Scope Z_scope.

(** ** Python numbers *)

Module Py.

Definition prec : Z := 53.
Definition emax : Z := 1024.

Inductive exn :=
| ZeroDivisionError
| OverflowError
| ValueError
| RuntimeError.

Inductive result (A : Type) :=
| Ok (a : A)
| Raise (e : exn).
Arguments Ok {A} a.
Arguments Raise {A} e.

(** A numeric variable of the script holds an int or a float. *)
Inductive num :=
| Int (z : Z)
| Float (f : spec_float).

(** The values stored in keyword and configuration dictionaries. *)
Inductive value :=
| VNum (n : num)
| VBool (b : bool)
| VStr (s : string).

Definition fadd := SFadd prec emax.
Definition fmul := SFmul prec emax.
Definition fdiv := SFdiv prec emax.
Definition fleb := SFleb.
Definition fltb := SFltb.

(** The binary64 value nearest to an integer (ties to even). *)
Definition Z2SF (z : Z) : spec_float := binary_normalize prec emax z 0 false.

(** [float(z)] for the int operand of a mixed operation: CPython raises
    OverflowError when the int is beyond the binary64 range. *)
Definition float_of_int (z : Z) : result spec_float :=
  match Z2SF z with
  | S754_infinity _ => Raise OverflowError
  | f => Ok f
  end.

Definition is_zero (f : spec_float) : bool :=
  match f with S754_zero _ => true | _ => false end.

(** [a / b] on two ints: the correctly rounded quotient. *)
Definition int_truediv (a b : Z) : result spec_float :=
  if b =? 0 then Raise ZeroDivisionError
  else
    let sign := xorb (a <? 0) (b <? 0) in
    if a =? 0 then Ok (S754_zero sign)
    else
      let '(q, e, l) := SFdiv_core_binary prec emax (Z.abs a) 0 (Z.abs b) 0 in
      match binary_round_aux prec emax sign q e l with
      | S754_infinity _ => Raise OverflowError
      | f => Ok f
      end.

(** [a / b] on two floats raises on a zero divisor instead of producing
    an infinity. *)
Definition float_truediv (a b : spec_float) : result spec_float :=
  if is_zero b then Raise ZeroDivisionError else Ok (fdiv a b).

(** A binary operation on floats applied to two numbers one of which is a
    float: the int operand, if any, is converted first. *)
Definition lift2 (op : spec_float -> spec_float -> result spec_float)
    (a b : num) : result spec_float :=
  match a, b with
  | Float x, Float y => op x y
  | Float x, Int j =>
      match float_of_int j with Ok y => op x y | Raise e => Raise e end
  | Int i, Float y =>
      match float_of_int i with Ok x => op x y | Raise e => Raise e end
  | Int i, Int j =>
      match float_of_int i, float_of_int j with
      | Ok x, Ok y => op x y
      | Raise e, _ => Raise e
      | _, Raise e => Raise e
      end
  end.

Definition as_num (r : result spec_float) : result num :=
  match r with Ok f => Ok (Float f) | Raise e => Raise e end.

Definition add (a b : num) : result num :=
  match a, b with
  | Int i, Int j => Ok (Int (i + j))
  | _, _ => as_num (lift2 (fun x y => Ok (fadd x y)) a b)
  end.

Definition mul (a b : num) : result num :=
  match a, b with
  | Int i, Int j => Ok (Int (i * j))
  | _, _ => as_num (lift2 (fun x y => Ok (fmul x y)) a b)
  end.

Definition truediv (a b : num) : result num :=
  match a, b with
  | Int i, Int j => as_num (int_truediv i j)
  | _, _ => as_num (lift2 float_truediv a b)
  end.

(** [a % b] on ints: the sign follows the divisor, as [Z.modulo]. *)
Definition int_mod (a b : Z) : result Z :=
  if b =? 0 then Raise ZeroDivisionError else Ok (a mod b).

(** The float literals of the script. *)
Definition f0 : spec_float := S754_zero false.
Definition f1 : spec_float := Eval vm_compute in Z2SF 1.
Definition f100 : spec_float := Eval vm_compute in Z2SF 100.
(** [0.7]: the binary64 value nearest to 7/10. *)
Definition f0_7 : spec_float := Eval vm_compute in fdiv (Z2SF 7) (Z2SF 10).

Definition is_nan (f : spec_float) : bool :=
  match f with S754_nan => true | _ => false end.

Definition is_finite (f : spec_float) : bool :=
  match f with S754_zero _ | S754_finite _ _ _ => true | _ => false end.

(** Sign bit clear and not NaN: a zero, a positive finite value or
    [+inf]. *)
Definition is_nonneg (f : spec_float) : bool :=
  match f with
  | S754_zero _ => true
  | S754_finite false _ _ => true
  | S754_infinity false => true
  | _ => false
  end.

End Py.

Import Py.

(** ** What the script writes *)

Inductive reduction := Mean | Sum.

Inductive device := Cpu | Cuda.

(** One call that leaves the process: a line on stdout or a call to the
    experiment tracker. *)
Inductive event :=
| PrintTrain (epoch seen total : Z) (pct : num) (loss : spec_float)
| PrintTest (loss : num) (correct total : Z) (pct : num)
| WandbInit (project : string) (config : gmap string value)
| WandbLogCode
| WandbLog (record : gmap string value)
| WandbFinish
| TorchSave (path : string).

Definition is_print_train (e : event) : Prop :=
  match e with PrintTrain _ _ _ _ _ => True | _ => False end.


(** The calls to the tracker among the events written. *)
Definition is_wandb (e : event) : bool :=
  match e with
  | WandbInit _ _ | WandbLogCode | WandbLog _ | WandbFinish => true
  | _ => false
  end.

Definition tracker (o : list event) : list event := List.filter is_wandb o.

(** The records passed to [wandb.log], in order. *)
Definition log_records (o : list event) : list (gmap string value) :=
  flat_map (fun e => match e with WandbLog r => [r] | _ => [] end) o.

(** What an epoch may write: progress lines, the summary line and
    records for the tracker. *)
Definition is_epoch_event (e : event) : Prop :=
  match e with
  | PrintTrain _ _ _ _ _ | PrintTest _ _ _ _ | WandbLog _ => True
  | _ => False
  end.

(** The two records of one epoch. *)
Definition epoch_records (losses : num * num) : list (gmap string value) :=
  [ {[ "train_loss" := VNum (fst losses) ]}; {[ "test_loss" := VNum (snd losses) ]} ].

(** A learning rate multiplied [k] times by the decay factor, each
    product rounded to binary64 as the scheduler computes it. *)
Definition geometric_lr (g l : spec_float) (k : nat) : spec_float :=
  Nat.iter k (fun x => fmul x g) l.

(** ** The collaborators

    Everything the script calls and does not define: the tensor library,
    the [Net] class of [plr_exercise.models.cnn], the MNIST files and the
    device probe.  A function of the library is a function here, so a
    collaborator answers the same way when asked the same thing.  A
    forward pass reads the parameters, the train/eval flag, whether
    gradients are recorded, and the global generator (dropout), and may
    fail (an exhausted device, a malformed batch). *)
Record Torch := {
  Image : Type;
  Tensor : Type;
  Params : Type;
  Grads : Type;
  OptState : Type;
  Rng : Type;
  (* torch.manual_seed *)
  manual_seed : Z -> Rng;
  (* the index permutation a shuffling loader draws for one pass *)
  randperm : Rng -> nat -> list nat * Rng;
  (* Net(): freshly initialised weights *)
  net_init : Rng -> Params * Rng;
  (* model(data), given parameters, training flag, grad mode, generator *)
  forward : Params -> bool -> bool -> Rng -> list Image -> result Tensor * Rng;
  (* F.nll_loss(output, target, reduction=...).item() *)
  nll_loss : reduction -> Tensor -> list Z -> spec_float;
  (* output.argmax(dim=1): the predicted class of each row *)
  argmax : Tensor -> list Z;
  (* loss.backward(): the new content of the .grad buffers *)
  backward : Tensor -> list Z -> option Grads -> Grads;
  (* optim.Adam(model.parameters(), ...) and optimizer.step() *)
  adam_init : Params -> OptState;
  adam_step : spec_float -> OptState -> Params -> option Grads -> Params * OptState;
  (* torch.cuda.is_available() *)
  cuda_is_available : bool;
  (* datasets.MNIST(..., train=b): images with their labels *)
  mnist : bool -> list (Image * Z)
}.

(** The proposal object optuna hands to [objective]. *)
Record Trial := {
  suggest_int : string -> Z -> Z -> Z;
  suggest_float : string -> Z -> Z -> spec_float
}.

(** [types.SimpleNamespace()] with the ten fields [objective] sets. *)
Record Args := {
  batch_size : Z;
  test_batch_size : Z;
  epochs : Z;
  lr : spec_float;
  gamma : spec_float;
  no_cuda : bool;
  dry_run : bool;
  seed : Z;
  log_interval : Z;
  save_model : bool
}.

(** ** Sampling and batching, as [torch.utils.data] does it *)

Section Batching.
Context {A : Type}.

(** [BatchSampler.__iter__]: fill a batch, yield it when it holds
    [batch_size] items, and yield the last, shorter one if any
    ([drop_last] is left at False).  [acc] is the batch being filled,
    newest item first. *)
Fixpoint batch_up (b : nat) (acc : list A) (l : list A) : list (list A) :=
  match l with
  | [] => match acc with [] => [] | _ => [rev acc] end
  | x :: l' =>
      if (S (length acc) =? b)%nat then rev (x :: acc) :: batch_up b [] l'
      else batch_up b (x :: acc) l'
  end.

(** The items of a dataset at the indices of one batch. *)
Fixpoint fetch (ds : list A) (ix : list nat) : list A :=
  match ix with
  | [] => []
  | i :: ix' =>
      match ds !! i with
      | Some x => x :: fetch ds ix'
      | None => fetch ds ix'
      end
  end.

End Batching.

(** [pred.eq(target.view_as(pred)).sum().item()] *)
Fixpoint count_eq (pred target : list Z) : Z :=
  match pred, target with
  | p :: ps, t :: ts => (if p =? t then 1 else 0) + count_eq ps ts
  | _, _ => 0
  end.

(** [range(n)] *)
Definition range (n : Z) : list Z := map Z.of_nat (seq 0 (Z.to_nat n)).

(** [d.update(u)]: the keys of [u] win. *)
Definition dict_update (d u : gmap string value) : gmap string value := u ∪ d.

(** ** The script *)

Section Script.
Context (W : Torch).

Definition example : Type := Image W * Z.
Definition batch : Type := list (Image W) * list Z.

(** The objects of one run: the global generator, the model (its
    parameters, its train/eval flag, its [.grad] buffers), the optimizer
    (the learning rate of its parameter group, Adam's moments) and the
    scheduler's epoch counter. *)
Record State := mkState {
  st_rng : Rng W;
  st_params : Params W;
  st_training : bool;
  st_grads : option (Grads W);
  st_lr : spec_float;
  st_opt : OptState W;
  st_last_epoch : Z
}.

Definition set_rng (g : Rng W) (s : State) : State :=
  mkState g (st_params s) (st_training s) (st_grads s) (st_lr s) (st_opt s)
    (st_last_epoch s).
Definition set_training (b : bool) (s : State) : State :=
  mkState (st_rng s) (st_params s) b (st_grads s) (st_lr s) (st_opt s)
    (st_last_epoch s).
Definition set_grads (g : option (Grads W)) (s : State) : State :=
  mkState (st_rng s) (st_params s) (st_training s) g (st_lr s) (st_opt s)
    (st_last_epoch s).
Definition set_model (p : Params W) (s : State) : State :=
  mkState (st_rng s) p true None (st_lr s) (st_opt s) (st_last_epoch s).
Definition set_optimizer (l : spec_float) (o : OptState W) (s : State) : State :=
  mkState (st_rng s) (st_params s) (st_training s) (st_grads s) l o
    (st_last_epoch s).
Definition set_stepped (p : Params W) (o : OptState W) (s : State) : State :=
  mkState (st_rng s) p (st_training s) (st_grads s) (st_lr s) o
    (st_last_epoch s).
Definition set_schedule (e : Z) (l : spec_float) (s : State) : State :=
  mkState (st_rng s) (st_params s) (st_training s) (st_grads s) l (st_opt s) e.

(** A computation: from a state to a result or an exception, the state
    reached, and the events emitted on the way. *)
Definition M (A : Type) : Type := State -> result A * State * list event.

Definition ret {A} (a : A) : M A := fun s => (Ok a, s, []).

Definition bind {A B} (m : M A) (k : A -> M B) : M B :=
  fun s =>
    match m s with
    | (Ok a, s1, out1) =>
        let '(r, s2, out2) := k a s1 in (r, s2, out1 ++ out2)
    | (Raise e, s1, out1) => (Raise e, s1, out1)
    end.

Definition lift {A} (r : result A) : M A := fun s => (r, s, []).

Definition emit (e : event) : M unit := fun s => (Ok tt, s, [e]).

Notation "'let*' x := m 'in' k" := (bind m (fun x => k))
  (at level 10, x name, k at level 200).
Notation "'let*' ' p := m 'in' k" := (bind m (fun x => match x with p => k end))
  (at level 10, p pattern, k at level 200).
Notation "m ;; k" := (bind m (fun _ => k))
  (at level 100, k at level 200, right associativity).

(** *** The data loaders *)

Record DataLoader := {
  dl_dataset : list example;
  dl_batch_size : nat;
  dl_shuffle : bool
}.

(** [torch.utils.data.DataLoader(dataset, **kwargs)].  [batch_size]
    defaults to 1 and must be a positive int, [shuffle] defaults to
    False; [num_workers] and [pin_memory] only say where the batches are
    assembled. *)
Definition make_loader (ds : list example) (kw : gmap string value)
    : result DataLoader :=
  let shuffle := match kw !! "shuffle" with Some (VBool b) => b | _ => false end in
  match kw !! "batch_size" with
  | None => Ok {| dl_dataset := ds; dl_batch_size := 1; dl_shuffle := shuffle |}
  | Some (VNum (Int b)) =>
      if 0 <? b
      then Ok {| dl_dataset := ds; dl_batch_size := Z.to_nat b;
                 dl_shuffle := shuffle |}
      else Raise ValueError
  | Some _ => Raise ValueError
  end.

(** [len(loader.dataset)] *)
Definition dataset_len (dl : DataLoader) : Z := Z.of_nat (length (dl_dataset dl)).

(** [len(loader)]: the number of batches of one pass. *)
Definition loader_len (dl : DataLoader) : Z :=
  (dataset_len dl + Z.of_nat (dl_batch_size dl) - 1) / Z.of_nat (dl_batch_size dl).

Definition collate (b : list example) : batch := (map fst b, map snd b).

(** One pass over a loader.  A sequential sampler walks the indices in
    order; a shuffling one draws a permutation from the global
    generator. *)
Definition iterate (dl : DataLoader) : M (list batch) :=
  fun s =>
    let n := length (dl_dataset dl) in
    let '(ix, s') :=
      if dl_shuffle dl
      then let '(p, g) := randperm W (st_rng s) n in (p, set_rng g s)
      else (seq 0 n, s) in
    (Ok (map (fun b => collate (fetch (dl_dataset dl) b))
           (batch_up (dl_batch_size dl) [] ix)), s', []).

(** *** Calls on the model, the optimizer and the scheduler *)

Definition torch_manual_seed (n : Z) : M unit :=
  fun s => (Ok tt, set_rng (manual_seed W n) s, []).

(** [model = Net().to(device)]: a new module is in training mode and has
    no gradients. *)
Definition Net (d : device) : M unit :=
  fun s => let '(p, g) := net_init W (st_rng s) in (Ok tt, set_model p (set_rng g s), []).

(** [optim.Adam(model.parameters(), lr=lr)]; the constructor rejects a
    learning rate for which [0.0 <= lr] is false. *)
Definition Adam (l : spec_float) : M unit :=
  fun s =>
    if fleb f0 l
    then (Ok tt, set_optimizer l (adam_init W (st_params s)) s, [])
    else (Raise ValueError, s, []).

(** [StepLR(optimizer, step_size, gamma)]: the counter starts at 0 and
    the learning rate is left as it is. *)
Definition StepLR : M unit :=
  fun s => (Ok tt, set_schedule 0 (st_lr s) s, []).

(** [scheduler.step()]: count one epoch; every [step_size] epochs the
    learning rate of the parameter group is multiplied by [gamma]. *)
Definition scheduler_step (step_size : Z) (g : spec_float) : M unit :=
  fun s =>
    let e := st_last_epoch s + 1 in
    let l := if (e =? 0) || negb (e mod step_size =? 0)
             then st_lr s else fmul (st_lr s) g in
    (Ok tt, set_schedule e l s, []).

Definition model_train : M unit := fun s => (Ok tt, set_training true s, []).
Definition model_eval : M unit := fun s => (Ok tt, set_training false s, []).

(** [model(data)], with gradients recorded ([grad]) or under
    [torch.no_grad()]. *)
Definition model_call (grad : bool) (data : list (Image W)) : M (Tensor W) :=
  fun s =>
    let '(r, g) := forward W (st_params s) (st_training s) grad (st_rng s) data in
    (r, set_rng g s, []).

Definition zero_grad : M unit := fun s => (Ok tt, set_grads None s, []).

Definition loss_backward (output : Tensor W) (target : list Z) : M unit :=
  fun s => (Ok tt, set_grads (Some (backward W output target (st_grads s))) s, []).

Definition optimizer_step : M unit :=
  fun s =>
    let '(p, o) := adam_step W (st_lr s) (st_opt s) (st_params s) (st_grads s) in
    (Ok tt, set_stepped p o s, []).

(** *** train *)

(** Lines 28-47: the update pass, [batch_idx] counting the batches. *)
Fixpoint train_batches (args : Args) (epoch total nbatches batch_idx : Z)
    (bs : list batch) : M unit :=
  match bs with
  | [] => ret tt
  | (data, target) :: rest =>
      zero_grad ;;
      let* output := model_call true data in
      let loss := nll_loss W Mean output target in
      loss_backward output target ;;
      optimizer_step ;;
      let* r := lift (int_mod batch_idx (log_interval args)) in
      if r =? 0 then
        let* scaled := lift (mul (Float f100) (Int batch_idx)) in
        let* pct := lift (truediv scaled (Int nbatches)) in
        emit (PrintTrain epoch (batch_idx * Z.of_nat (length data)) total pct loss) ;;
        if dry_run args then ret tt
        else train_batches args epoch total nbatches (batch_idx + 1) rest
      else train_batches args epoch total nbatches (batch_idx + 1) rest
  end.

(** Lines 52-58 and 80-86, the same loop in [train] and in [test]: sum
    the batch losses and count the right predictions, without recording
    gradients. *)
Fixpoint eval_batches (loss : num) (correct : Z) (bs : list batch)
    : M (num * Z) :=
  match bs with
  | [] => ret (loss, correct)
  | (data, target) :: rest =>
      let* output := model_call false data in
      let* loss' := lift (add loss (Float (nll_loss W Sum output target))) in
      let pred := argmax W output in
      eval_batches loss' (correct + count_eq pred target) rest
  end.

(** [train(args, model, device, train_loader, optimizer, epoch)]; the
    model and the optimizer are the ones of the state. *)
Definition train (args : Args) (dev : device) (train_loader : DataLoader)
    (epoch : Z) : M unit :=
  model_train ;;
  let* bs := iterate train_loader in
  train_batches args epoch (dataset_len train_loader) (loader_len train_loader) 0 bs ;;
  let* bs' := iterate train_loader in
  let* '(train_loss, correct) := eval_batches (Int 0) 0 bs' in
  let* train_loss := lift (truediv train_loss (Int (dataset_len train_loader))) in
  emit (WandbLog {[ "train_loss" := VNum train_loss ]}).

(** *** test *)

(** [test(model, device, test_loader, epoch)] *)
Definition test (dev : device) (test_loader : DataLoader) (epoch : Z) : M num :=
  model_eval ;;
  let* bs := iterate test_loader in
  let* '(test_loss, correct) := eval_batches (Int 0) 0 bs in
  let* test_loss := lift (truediv test_loss (Int (dataset_len test_loader))) in
  let* scaled := lift (mul (Float f100) (Int correct)) in
  let* pct := lift (truediv scaled (Int (dataset_len test_loader))) in
  emit (PrintTest test_loss correct (dataset_len test_loader) pct) ;;
  emit (WandbLog {[ "test_loss" := VNum test_loss ]}) ;;
  ret test_loss.

(** *** objective *)

Definition objective_args (trial : Trial) : Args :=
  {| batch_size := 64;
     test_batch_size := 1000;
     epochs := suggest_int trial "epochs" 3 30;
     lr := suggest_float trial "learning_rate" 0 1;
     gamma := f0_7;
     no_cuda := false;
     dry_run := false;
     seed := 1;
     log_interval := 10;
     save_model := false |}.

Definition use_cuda (args : Args) : bool := negb (no_cuda args) && cuda_is_available W.

Definition cuda_kwargs : gmap string value :=
  {[ "num_workers" := VNum (Int 1); "pin_memory" := VBool true;
     "shuffle" := VBool true ]}.

(** Lines 124-129. *)
Definition train_kwargs (args : Args) : gmap string value :=
  let kw := {[ "batch_size" := VNum (Int (batch_size args)) ]} in
  if use_cuda args then dict_update kw cuda_kwargs else kw.

Definition test_kwargs (args : Args) : gmap string value :=
  let kw := {[ "batch_size" := VNum (Int (test_batch_size args)) ]} in
  if use_cuda args then dict_update kw cuda_kwargs else kw.

Definition wandb_config (args : Args) : gmap string value :=
  {[ "learning_rate" := VNum (Float (lr args));
     "architecture" := VStr "CNN";
     "dataset" := VStr "MNIST";
     "epochs" := VNum (Int (epochs args));
     "batch_size" := VNum (Int (batch_size args));
     "gamma" := VNum (Float (gamma args));
     "seed" := VNum (Int (seed args)) ]}.

(** Lines 158-161: the loop over [range(args.epochs)], [test_loss]
    being the variable it assigns. *)
Fixpoint epoch_loop (args : Args) (dev : device)
    (train_loader test_loader : DataLoader) (es : list Z) (test_loss : num)
    : M num :=
  match es with
  | [] => ret test_loss
  | epoch :: rest =>
      train args dev train_loader epoch ;;
      let* test_loss' := test dev test_loader epoch in
      scheduler_step 1 (gamma args) ;;
      epoch_loop args dev train_loader test_loader rest test_loss'
  end.

(** Lines 103-138: everything before the tracker is opened. *)
Definition objective_setup (trial : Trial) : M (Args * device * DataLoader * DataLoader) :=
  let args := objective_args trial in
  torch_manual_seed (seed args) ;;
  let dev := if use_cuda args then Cuda else Cpu in
  let dataset1 := mnist W true in
  let dataset2 := mnist W false in
  let* train_loader := lift (make_loader dataset1 (train_kwargs args)) in
  let* test_loader := lift (make_loader dataset2 (test_kwargs args)) in
  Net dev ;;
  Adam (lr args) ;;
  ret (args, dev, train_loader, test_loader).

(** Lines 140-168. *)
Definition objective_run (args : Args) (dev : device)
    (train_loader test_loader : DataLoader) : M num :=
  emit (WandbInit "plr_exercise" (wandb_config args)) ;;
  emit WandbLogCode ;;
  let test_loss := Int 1000000 in
  StepLR ;;
  let* test_loss := epoch_loop args dev train_loader test_loader
                      (range (epochs args)) test_loss in
  emit WandbFinish ;;
  (if save_model args then emit (TorchSave "mnist_cnn.pt") else ret tt) ;;
  ret test_loss.

(** [objective(trial)] *)
Definition objective (trial : Trial) : M num :=
  let* '(args, dev, train_loader, test_loader) := objective_setup trial in
  objective_run args dev train_loader test_loader.

(** ** Vocabulary for the statements *)

(** A computation leaves a component of the state alone, whether it
    returns or raises. *)
Definition preserves {X A} (proj : State -> X) (m : M A) : Prop :=
  forall s r s' o, m s = (r, s', o) -> proj s' = proj s.

(** Every event a computation emits satisfies [P]. *)
Definition emits {A} (P : event -> Prop) (m : M A) : Prop :=
  forall s r s' o, m s = (r, s', o) -> Forall P o.

(** One pass over a loader never fails and writes nothing: the batches
    it yields and the state it leaves. *)
Definition pass (dl : DataLoader) (s : State) : list (batch) * State :=
  match iterate dl s with
  | (Ok bs, s', _) => (bs, s')
  | (Raise _, s', _) => ([], s')
  end.

(** Lines 88-93: the mean loss and the percentage [test] prints. *)
Definition report (total : num) (correct n : Z) : result (num * num) :=
  match truediv total (Int n) with
  | Raise e => Raise e
  | Ok mean =>
      match mul (Float f100) (Int correct) with
      | Raise e => Raise e
      | Ok scaled =>
          match truediv scaled (Int n) with
          | Raise e => Raise e
          | Ok pct => Ok (mean, pct)
          end
      end
  end.

(** The device [objective] selects. *)
Definition objective_device (trial : Trial) : device :=
  if use_cuda (objective_args trial) then Cuda else Cpu.

(** The two loaders [objective] builds. *)
Definition objective_train_loader (trial : Trial) : DataLoader :=
  {| dl_dataset := mnist W true; dl_batch_size := 64;
     dl_shuffle := cuda_is_available W |}.

Definition objective_test_loader (trial : Trial) : DataLoader :=
  {| dl_dataset := mnist W false; dl_batch_size := 1000;
     dl_shuffle := cuda_is_available W |}.

(** The state in which the epoch loop starts: everything in it comes from
    the seed and the proposal. *)
Definition run_state (trial : Trial) : State :=
  let '(p, g) := net_init W (manual_seed W 1) in
  mkState g p true None (lr (objective_args trial)) (adam_init W p) 0.

(** *** The training run as the spec draws it

    A machine that is at one of three stations of some epoch, or has
    finished, or has failed.  One step runs the station: the trainer,
    then the evaluator, then the scheduler, then the trainer of the next
    epoch as long as there is one. *)
Inductive phase :=
| Training (epoch : Z)
| Evaluating (epoch : Z)
| Scheduling (epoch : Z)
| Finished
| Failed (e : exn).

Record machine := {
  at_phase : phase;
  last_loss : num;
  store : State;
  written : list event
}.

Definition machine_start (n : Z) (test_loss : num) (s : State) : machine :=
  {| at_phase := if 0 <? n then Training 0 else Finished;
     last_loss := test_loss; store := s; written := [] |}.

Definition machine_step (args : Args) (dev : device)
    (train_loader test_loader : DataLoader) (n : Z) (c : machine) : machine :=
  match at_phase c with
  | Training e =>
      match train args dev train_loader e (store c) with
      | (Ok _, s, o) =>
          {| at_phase := Evaluating e; last_loss := last_loss c;
             store := s; written := written c ++ o |}
      | (Raise x, s, o) =>
          {| at_phase := Failed x; last_loss := last_loss c;
             store := s; written := written c ++ o |}
      end
  | Evaluating e =>
      match test dev test_loader e (store c) with
      | (Ok v, s, o) =>
          {| at_phase := Scheduling e; last_loss := v;
             store := s; written := written c ++ o |}
      | (Raise x, s, o) =>
          {| at_phase := Failed x; last_loss := last_loss c;
             store := s; written := written c ++ o |}
      end
  | Scheduling e =>
      match scheduler_step 1 (gamma args) (store c) with
      | (Ok _, s, o) =>
          {| at_phase := if e + 1 <? n then Training (e + 1) else Finished;
             last_loss := last_loss c; store := s; written := written c ++ o |}
      | (Raise x, s, o) =>
          {| at_phase := Failed x; last_loss := last_loss c;
             store := s; written := written c ++ o |}
      end
  | Finished | Failed _ => c
  end.

(** The stations the machine is at during its first [k] steps. *)
Fixpoint stations (step : machine -> machine) (k : nat) (c : machine) : list phase :=
  match k with
  | O => []
  | S k' => at_phase c :: stations step k' (step c)
  end.

(** What a machine that has stopped hands back. *)
Definition machine_outcome (c : machine) : option (result num * State * list event) :=
  match at_phase c with
  | Finished => Some (Ok (last_loss c), store c, written c)
  | Failed x => Some (Raise x, store c, written c)
  | _ => None
  end.

(** *** The evaluation loop in one piece

    The forward passes of a loop over [bs] made under [torch.no_grad()],
    as long as they succeed: each output with the targets of its batch.
    The generator is threaded from pass to pass. *)
Fixpoint forward_passes (s : State) (bs : list batch) : list (Tensor W * list Z) :=
  match bs with
  | [] => []
  | (data, target) :: rest =>
      match forward W (st_params s) (st_training s) false (st_rng s) data with
      | (Ok output, g) => (output, target) :: forward_passes (set_rng g s) rest
      | (Raise _, _) => []
      end
  end.

(** The batch losses added up from the left, starting at [0.0]. *)
Definition sum_losses (outs : list (Tensor W * list Z)) : spec_float :=
  fold_left (fun acc ot => fadd acc (nll_loss W Sum (fst ot) (snd ot))) outs f0.

(** The examples, over all batches, whose predicted class is their
    target. *)
Definition count_correct (outs : list (Tensor W * list Z)) : Z :=
  count_eq (concat (map (fun ot => argmax W (fst ot)) outs))
    (concat (map snd outs)).

(** *** What is asked of the collaborators in some statements *)

(** A shuffling pass draws a permutation of the indices. *)
Definition shuffles_properly : Prop :=
  forall g n, fst (randperm W g n) ≡ₚ seq 0 n.

(** The forward pass does not fail. *)
Definition forward_succeeds : Prop :=
  forall p tr gr g xs, exists output, fst (forward W p tr gr g xs) = Ok output.

(** The model predicts one class per image of the batch. *)
Definition one_prediction_per_image : Prop :=
  forall p tr gr g xs output,
    fst (forward W p tr gr g xs) = Ok output ->
    length (argmax W output) = length xs.

(** *** One update of the training pass

    The state after lines 31-35 on one batch: gradients cleared, a
    forward pass that left the generator at [g] and returned [output],
    the gradients of its loss, one step of the optimizer. *)
Definition updated (s : State) (output : Tensor W) (target : list Z)
    (g : Rng W) : State :=
  let s1 := set_grads (Some (backward W output target None))
              (set_rng g (set_grads None s)) in
  let '(p, o) := adam_step W (st_lr s1) (st_opt s1) (st_params s1) (st_grads s1) in
  set_stepped p o s1.

(** The right predictions as the loop counts them, batch by batch. *)
Definition right_predictions (outs : list (Tensor W * list Z)) : Z :=
  fold_right (fun ot n => count_eq (argmax W (fst ot)) (snd ot) + n) 0 outs.

(** One more batch loss on the running sum. *)
Definition add_loss (acc : spec_float) (ot : Tensor W * list Z) : spec_float :=
  fadd acc (nll_loss W Sum (fst ot) (snd ot)).

End Script.

Arguments ret {W A} a.
Arguments bind {W A B} m k.
Arguments lift {W A} r.
Arguments emit {W} e.
Arguments mkState {W}.
Arguments st_rng {W}.
Arguments st_params {W}.
Arguments st_training {W}.
Arguments st_grads {W}.
Arguments st_lr {W}.
Arguments st_opt {W}.
Arguments st_last_epoch {W}.
Arguments dl_dataset {W}.
Arguments dl_batch_size {W}.
Arguments dl_shuffle {W}.
Arguments at_phase {W}.
Arguments last_loss {W}.
Arguments store {W}.
Arguments written {W}.
Arguments preserves {W X A} proj m.
Arguments emits {W A} P m.

(** ** Small worlds to run the script in

    Images are integers, the class of [x] under parameters [p] is
    [(x + p) mod 3], a batch loss is the number of wrong predictions,
    and one optimizer step adds one to the parameters.  The switches say
    whether a CUDA device is present, whether the forward pass fails,
    and whether the loss is NaN. *)
Definition toy_world (cuda fails nan : bool) : Torch := {|
  Image := Z;
  Tensor := list Z;
  Params := Z;
  Grads := Z;
  OptState := Z;
  Rng := Z;
  manual_seed := fun n => n;
  randperm := fun g n => (rev (seq 0 n), g + 1);
  net_init := fun g => (g, g + 1);
  forward := fun p _ _ g xs =>
    if fails then (Raise RuntimeError, g)
    else (Ok (map (fun x => (x + p) mod 3) xs), g);
  nll_loss := fun _ out tgt =>
    if nan then S754_nan else Z2SF (Z.of_nat (length out) - count_eq out tgt);
  argmax := fun out => out;
  backward := fun _ _ _ => 1;
  adam_init := fun _ => 0;
  adam_step := fun _ o p _ => (p + 1, o + 1);
  cuda_is_available := cuda;
  mnist := fun train =>
    if train then [(0, 0); (1, 1); (2, 2); (3, 0); (4, 1)]
    else [(5, 2); (6, 0); (7, 1); (8, 2); (9, 0)]
|}.

Definition toy : Torch := toy_world false false false.
Definition toy_failing : Torch := toy_world false true false.
Definition toy_nan : Torch := toy_world false false true.

(** Some state left behind by whatever ran before. *)
Definition stale (W : Torch) (g : Rng W) (p : Params W) (o : OptState W) : State W :=
  mkState g p false None f0 o 7.

(** [0.5] *)
Definition f0_5 : spec_float := Eval vm_compute in fdiv (Z2SF 1) (Z2SF 2).

(** A proposal answering [e] for the epochs and [l] for the learning rate. *)
Definition proposal (e : Z) (l : spec_float) : Trial :=
  {| suggest_int := fun _ _ _ => e; suggest_float := fun _ _ _ => l |}.

(** Arguments for [train] outside [objective]: the constants of
    [objective] with a logging interval and a dry-run flag of one's
    choice. *)
Definition train_args (interval : Z) (dry : bool) : Args :=
  {| batch_size := 64;
     test_batch_size := 1000;
     epochs := 3;
     lr := f0_5;
     gamma := f0_7;
     no_cuda := false;
     dry_run := dry;
     seed := 1;
     log_interval := interval;
     save_model := false |}.

(** ** Reading a computation *)

Section Monad.
Context {W : Torch}.

Lemma bind_Ok {A B} (m : M W A) (k : A -> M W B) s a s1 o1 :
  m s = (Ok a, s1, o1) ->
  bind m k s = (let '(r, s2, o2) := k a s1 in (r, s2, o1 ++ o2)).
Proof. intros H. unfold bind. now rewrite H. Qed.

Lemma bind_Raise {A B} (m : M W A) (k : A -> M W B) s e s1 o1 :
  m s = (Raise e, s1, o1) -> bind m k s = (Raise e, s1, o1).
Proof. intros H. unfold bind. now rewrite H. Qed.

Lemma bind_inv {A B} (m : M W A) (k : A -> M W B) s r s' o :
  bind m k s = (r, s', o) ->
  (exists a s1 o1 o2,
      m s = (Ok a, s1, o1) /\ k a s1 = (r, s', o2) /\ o = o1 ++ o2)
  \/ (exists e, m s = (Raise e, s', o) /\ r = Raise e).
Proof.
  unfold bind. destruct (m s) as [[[a|e] s1] o1].
  - destruct (k a s1) as [[r2 s2] o2] eqn:Hk. intros [= <- <- <-].
    left. exists a, s1, o1, o2. auto.
  - intros [= <- <- <-]. right. exists e. auto.
Qed.


Lemma ret_bind {A B} (a : A) (k : A -> M W B) s : bind (ret a) k s = k a s.
Proof. unfold bind, ret. now destruct (k a s) as [[r s'] o]. Qed.

Lemma bind_assoc {A B C} (m : M W A) (k : A -> M W B) (h : B -> M W C) s :
  bind (bind m k) h s = bind m (fun a => bind (k a) h) s.
Proof.
  unfold bind. destruct (m s) as [[[a|e] s1] o1]; [|reflexivity].
  destruct (k a s1) as [[[b|e] s2] o2]; [|reflexivity].
  destruct (h b s2) as [[r s3] o3]. now rewrite app_assoc.
Qed.

Lemma bind_ext {A B} (m : M W A) (k k' : A -> M W B) s :
  (forall a s1, k a s1 = k' a s1) -> bind m k s = bind m k' s.
Proof.
  intros H. unfold bind. destruct (m s) as [[[a|e] s1] o1]; [|reflexivity].
  now rewrite H.
Qed.

Lemma preserves_ret {X A} (proj : State W -> X) (a : A) : preserves proj (ret a).
Proof. intros s r s' o [= _ <- _]. reflexivity. Qed.

Lemma preserves_lift {X A} (proj : State W -> X) (x : result A) :
  preserves proj (lift x).
Proof. intros s r s' o [= _ <- _]. reflexivity. Qed.

Lemma preserves_emit {X} (proj : State W -> X) (e : event) :
  preserves proj (emit e).
Proof. intros s r s' o [= _ <- _]. reflexivity. Qed.

Lemma preserves_bind {X A B} (proj : State W -> X) (m : M W A) (k : A -> M W B) :
  preserves proj m -> (forall a, preserves proj (k a)) ->
  preserves proj (bind m k).
Proof.
  intros Hm Hk s r s' o H.
  destruct (bind_inv _ _ _ _ _ _ H) as [(a & s1 & o1 & o2 & H1 & H2 & _)|(e & H1 & _)].
  - rewrite (Hk _ _ _ _ _ H2). exact (Hm _ _ _ _ H1).
  - exact (Hm _ _ _ _ H1).
Qed.


Lemma emits_ret {A} P (a : A) : emits P (ret a : M W A).
Proof. intros s r s' o [= _ _ <-]. constructor. Qed.

Lemma emits_lift {A} P (x : result A) : emits P (lift x : M W A).
Proof. intros s r s' o [= _ _ <-]. constructor. Qed.

Lemma emits_emit (P : event -> Prop) e : P e -> emits P (emit e : M W unit).
Proof. intros He s r s' o [= _ _ <-]. repeat constructor. exact He. Qed.

Lemma emits_bind {A B} P (m : M W A) (k : A -> M W B) :
  emits P m -> (forall a, emits P (k a)) -> emits P (bind m k).
Proof.
  intros Hm Hk s r s' o H.
  destruct (bind_inv _ _ _ _ _ _ H) as [(a & s1 & o1 & o2 & H1 & H2 & ->)|(e & H1 & _)].
  - apply Forall_app. split; [exact (Hm _ _ _ _ H1) | exact (Hk _ _ _ _ _ H2)].
  - exact (Hm _ _ _ _ H1).
Qed.

Lemma emits_nothing {A} (m : M W A) s r s' o :
  emits (fun _ => False) m -> m s = (r, s', o) -> o = [].
Proof.
  intros Hm H. specialize (Hm _ _ _ _ H). destruct o as [|e o]; [reflexivity|].
  now inversion Hm.
Qed.

End Monad.

Create HintDb frame.

#[local] Hint Resolve preserves_ret preserves_lift preserves_emit
  emits_ret emits_lift : frame.

(** Invert a hypothesis [bind m k s = (r, s', o)]. *)
Ltac bind_inv H :=
  let a := fresh "a" in let s1 := fresh "s" in
  let o1 := fresh "o" in let o2 := fresh "o" in
  let e := fresh "e" in
  let H1 := fresh "Hm" in let H2 := fresh "Hk" in
  let Hr := fresh "Hr" in
  apply bind_inv in H;
  destruct H as [(a & s1 & o1 & o2 & H1 & H2 & ->)|(e & H1 & Hr)];
  [|try discriminate Hr].


(** ** What [train] and [test] touch and what they write *)


Section Frame.
Context {W : Torch} {X : Type} (proj : State W -> X).
Hypothesis ignores_rng : forall g s, proj (set_rng W g s) = proj s.
Hypothesis ignores_training : forall b s, proj (set_training W b s) = proj s.

Lemma preserves_iterate dl : preserves proj (iterate W dl).
Proof.
  intros s r s' o. unfold iterate. destruct (dl_shuffle dl).
  - destruct (randperm W (st_rng s) _) as [p g]. intros [= _ <- _]. apply ignores_rng.
  - intros [= _ <- _]. reflexivity.
Qed.

Lemma preserves_model_call grad data : preserves proj (model_call W grad data).
Proof.
  intros s r s' o. unfold model_call.
  destruct (forward W _ _ _ _ _) as [x g]. intros [= _ <- _]. apply ignores_rng.
Qed.

Lemma preserves_model_eval : preserves proj (model_eval W).
Proof. intros s r s' o [= _ <- _]. apply ignores_training. Qed.

Lemma preserves_model_train : preserves proj (model_train W).
Proof. intros s r s' o [= _ <- _]. apply ignores_training. Qed.

Lemma preserves_eval_batches bs :
  forall loss correct, preserves proj (eval_batches W loss correct bs).
Proof.
  induction bs as [|[data target] bs IH]; intros loss correct; simpl.
  - apply preserves_ret.
  - apply preserves_bind; [apply preserves_model_call|]. intros output.
    apply preserves_bind; [apply preserves_lift|]. intros loss'. apply IH.
Qed.

Lemma preserves_test dev dl epoch : preserves proj (test W dev dl epoch).
Proof.
  unfold test.
  apply preserves_bind; [apply preserves_model_eval|]. intros _.
  apply preserves_bind; [apply preserves_iterate|]. intros bs.
  apply preserves_bind; [apply preserves_eval_batches|]. intros [l c].
  repeat (apply preserves_bind; [auto with frame|]; intros ?).
  apply preserves_ret.
Qed.

Hypothesis ignores_grads : forall g s, proj (set_grads W g s) = proj s.
Hypothesis ignores_stepped : forall p o s, proj (set_stepped W p o s) = proj s.

Lemma preserves_train_batches args epoch total nbatches bs :
  forall idx, preserves proj (train_batches W args epoch total nbatches idx bs).
Proof.
  induction bs as [|[data target] bs IH]; intros idx; simpl.
  - apply preserves_ret.
  - apply preserves_bind.
    { intros s r s' o [= _ <- _]. apply ignores_grads. }
    intros _. apply preserves_bind; [apply preserves_model_call|]. intros output.
    apply preserves_bind.
    { intros s r s' o [= _ <- _]. apply ignores_grads. }
    intros _. apply preserves_bind.
    { intros s r s' o. unfold optimizer_step.
      destruct (adam_step W _ _ _ _) as [p op]. intros [= _ <- _].
      apply ignores_stepped. }
    intros _. apply preserves_bind; [apply preserves_lift|]. intros r.
    destruct (r =? 0); [|apply IH].
    repeat (apply preserves_bind; [auto with frame|]; intros ?).
    destruct (dry_run args); [apply preserves_ret | apply IH].
Qed.

Lemma preserves_train args dev dl epoch : preserves proj (train W args dev dl epoch).
Proof.
  unfold train.
  apply preserves_bind; [apply preserves_model_train|]. intros _.
  apply preserves_bind; [apply preserves_iterate|]. intros bs.
  apply preserves_bind; [apply preserves_train_batches|]. intros _.
  apply preserves_bind; [apply preserves_iterate|]. intros bs'.
  apply preserves_bind; [apply preserves_eval_batches|]. intros [l c].
  apply preserves_bind; [apply preserves_lift|]. intros tl.
  apply preserves_emit.
Qed.

End Frame.

Section Writes.
Context {W : Torch}.

Lemma iterate_silent dl : emits (fun _ => False) (iterate W dl).
Proof.
  intros s r s' o. unfold iterate. destruct (dl_shuffle dl).
  - destruct (randperm W (st_rng s) _) as [p g]. intros [= _ _ <-]. constructor.
  - intros [= _ _ <-]. constructor.
Qed.

Lemma iterate_Ok dl s : exists bs s', iterate W dl s = (Ok bs, s', []).
Proof.
  unfold iterate. destruct (dl_shuffle dl).
  - destruct (randperm W (st_rng s) _) as [p g]. eauto.
  - eauto.
Qed.

Lemma model_call_silent P grad data : emits P (model_call W grad data).
Proof.
  intros s r s' o. unfold model_call.
  destruct (forward W _ _ _ _ _) as [x g]. intros [= _ _ <-]. constructor.
Qed.

Lemma eval_batches_silent bs :
  forall loss correct, emits (fun _ => False) (eval_batches W loss correct bs).
Proof.
  induction bs as [|[data target] bs IH]; intros loss correct; simpl.
  - apply emits_ret.
  - apply emits_bind; [apply model_call_silent|]. intros output.
    apply emits_bind; [apply emits_lift|]. intros loss'. apply IH.
Qed.

Lemma train_batches_prints args epoch total nbatches bs :
  forall idx, emits is_print_train (train_batches W args epoch total nbatches idx bs).
Proof.
  induction bs as [|[data target] bs IH]; intros idx; simpl.
  - apply emits_ret.
  - apply emits_bind; [intros s r s' o [= _ _ <-]; constructor|]. intros _.
    apply emits_bind; [apply model_call_silent|]. intros output.
    apply emits_bind; [intros s r s' o [= _ _ <-]; constructor|]. intros _.
    apply emits_bind.
    { intros s r s' o. unfold optimizer_step.
      destruct (adam_step W _ _ _ _) as [p op]. intros [= _ _ <-]. constructor. }
    intros _. apply emits_bind; [apply emits_lift|]. intros r.
    destruct (r =? 0); [|apply IH].
    apply emits_bind; [apply emits_lift|]. intros scaled.
    apply emits_bind; [apply emits_lift|]. intros pct.
    apply emits_bind; [apply emits_emit; exact I|]. intros _.
    destruct (dry_run args); [apply emits_ret | apply IH].
Qed.

End Writes.

(** ** [train] and [test] step by step *)

Section Steps.
Context (W : Torch).


Lemma iterate_pass dl s :
  iterate W dl s = (Ok (fst (pass W dl s)), snd (pass W dl s), []).
Proof.
  unfold pass. destruct (iterate_Ok (W:=W) dl s) as (bs & s' & H).
  now rewrite H.
Qed.


Lemma eval_batches_out bs loss correct s r s' o :
  eval_batches W loss correct bs s = (r, s', o) -> o = [].
Proof. apply emits_nothing, eval_batches_silent. Qed.

Lemma test_eq dev dl epoch s :
  test W dev dl epoch s =
  let '(bs, s1) := pass W dl (set_training W false s) in
  match eval_batches W (Int 0) 0 bs s1 with
  | (Raise e, s2, _) => (Raise e, s2, [])
  | (Ok (total, correct), s2, _) =>
      match report total correct (dataset_len W dl) with
      | Raise e => (Raise e, s2, [])
      | Ok (mean, pct) =>
          (Ok mean, s2,
           [PrintTest mean correct (dataset_len W dl) pct;
            WandbLog {[ "test_loss" := VNum mean ]}])
      end
  end.
Proof.
  unfold test, bind at 1 2. unfold model_eval at 1.
  rewrite iterate_pass. destruct (pass W dl _) as [bs s1]. simpl fst; simpl snd.
  unfold bind at 1.
  destruct (eval_batches W (Int 0) 0 bs s1) as [[[[total correct]|e] s2] o] eqn:He;
    pose proof (eval_batches_out _ _ _ _ _ _ _ He) as ->; [|reflexivity].
  unfold report, bind, lift, emit, ret.
  destruct (truediv total _) as [mean|e]; [|reflexivity].
  destruct (mul _ _) as [scaled|e]; [|reflexivity].
  destruct (truediv scaled _) as [pct|e]; reflexivity.
Qed.

Lemma train_eq args dev dl epoch s :
  train W args dev dl epoch s =
  let '(bs, s1) := pass W dl (set_training W true s) in
  match train_batches W args epoch (dataset_len W dl) (loader_len W dl) 0 bs s1 with
  | (Raise e, s2, o) => (Raise e, s2, o)
  | (Ok _, s2, o) =>
      let '(bs', s3) := pass W dl s2 in
      match eval_batches W (Int 0) 0 bs' s3 with
      | (Raise e, s4, _) => (Raise e, s4, o)
      | (Ok (total, _), s4, _) =>
          match truediv total (Int (dataset_len W dl)) with
          | Raise e => (Raise e, s4, o)
          | Ok mean => (Ok tt, s4, o ++ [WandbLog {[ "train_loss" := VNum mean ]}])
          end
      end
  end.
Proof.
  unfold train, bind at 1 2. unfold model_train at 1.
  rewrite iterate_pass. destruct (pass W dl _) as [bs s1]. simpl fst; simpl snd.
  unfold bind at 1.
  destruct (train_batches _ _ _ _ _ _ _ _) as [[[[]|e] s2] o]; [|reflexivity].
  unfold bind at 1. rewrite iterate_pass. destruct (pass W dl s2) as [bs' s3].
  simpl fst; simpl snd. unfold bind at 1.
  destruct (eval_batches W (Int 0) 0 bs' s3) as [[[[total correct]|e] s4] o'] eqn:He;
    pose proof (eval_batches_out _ _ _ _ _ _ _ He) as ->;
    [|now rewrite !app_nil_r].
  unfold bind, lift, emit.
  destruct (truediv total _) as [mean|e]; now rewrite ?app_nil_r.
Qed.

End Steps.

(** ** What [objective] builds before the first epoch *)

Section Setup.
Context (W : Torch).


Lemma train_loader_made (trial : Trial) :
  make_loader W (mnist W true) (train_kwargs W (objective_args trial))
  = Ok (objective_train_loader W trial).
Proof.
  unfold train_kwargs, use_cuda, make_loader, objective_train_loader. simpl.
  destruct (cuda_is_available W); reflexivity.
Qed.

Lemma test_loader_made (trial : Trial) :
  make_loader W (mnist W false) (test_kwargs W (objective_args trial))
  = Ok (objective_test_loader W trial).
Proof.
  unfold test_kwargs, use_cuda, make_loader, objective_test_loader. simpl.
  destruct (cuda_is_available W); reflexivity.
Qed.

Lemma objective_setup_rejects (trial : Trial) (s : State W) :
  fleb f0 (lr (objective_args trial)) = false ->
  exists s', objective_setup W trial s = (Raise ValueError, s', []).
Proof.
  intros Hlr. unfold objective_setup, bind, torch_manual_seed, lift, Net, Adam.
  rewrite train_loader_made, test_loader_made. simpl.
  destruct (net_init W (manual_seed W 1)) as [p g]. simpl in *.
  rewrite Hlr. eauto.
Qed.

Lemma objective_rejects (trial : Trial) (s : State W) :
  fleb f0 (lr (objective_args trial)) = false ->
  exists s', objective W trial s = (Raise ValueError, s', []).
Proof.
  intros Hlr. destruct (objective_setup_rejects trial s Hlr) as [s' H].
  exists s'. unfold objective. now rewrite (bind_Raise _ _ _ _ _ _ H).
Qed.

Lemma objective_setup_Ok (trial : Trial) (s : State W) :
  fleb f0 (lr (objective_args trial)) = true ->
  exists s',
    objective_setup W trial s
    = (Ok (objective_args trial, objective_device W trial,
           objective_train_loader W trial, objective_test_loader W trial), s', [])
    /\ StepLR W s' = (Ok tt, run_state W trial, []).
Proof.
  intros Hlr. unfold objective_setup, bind, torch_manual_seed, lift, Net, Adam,
    run_state, StepLR.
  rewrite train_loader_made, test_loader_made. simpl.
  destruct (net_init W (manual_seed W 1)) as [p g]. simpl in *.
  rewrite Hlr. simpl. eauto.
Qed.

(** [objective] is its epoch loop, started in [run_state], between the
    opening and the closing of the tracker session. *)
Lemma objective_unfold (trial : Trial) (s : State W) :
  fleb f0 (lr (objective_args trial)) = true ->
  objective W trial s =
  match epoch_loop W (objective_args trial) (objective_device W trial)
          (objective_train_loader W trial) (objective_test_loader W trial)
          (range (epochs (objective_args trial))) (Int 1000000)
          (run_state W trial) with
  | (Ok v, s', o) =>
      (Ok v, s',
       WandbInit "plr_exercise" (wandb_config (objective_args trial))
         :: WandbLogCode :: o ++ [WandbFinish])
  | (Raise e, s', o) =>
      (Raise e, s',
       WandbInit "plr_exercise" (wandb_config (objective_args trial))
         :: WandbLogCode :: o)
  end.
Proof.
  intros Hlr. destruct (objective_setup_Ok trial s Hlr) as (s' & Hs & Hstep).
  unfold objective. rewrite (bind_Ok _ _ _ _ _ _ Hs).
  unfold objective_run, bind at 1 2 3. unfold emit at 1 2.
  rewrite Hstep.
  unfold bind at 1.
  destruct (epoch_loop _ _ _ _ _ _ _ _) as [[[v|e] s2] o]; simpl.
  - reflexivity.
  - reflexivity.
Qed.

End Setup.

(** ** Batches of an unshuffled pass *)

Section Fetch.
Context {A : Type}.
Implicit Types (ds : list A) (ix acc : list nat).

Lemma fetch_app ds ix1 ix2 : fetch ds (ix1 ++ ix2) = fetch ds ix1 ++ fetch ds ix2.
Proof.
  induction ix1 as [|i ix1 IH]; [reflexivity|]. simpl.
  destruct (ds !! i); simpl; now rewrite IH.
Qed.

Lemma fetch_rev ds ix : fetch ds (rev ix) = rev (fetch ds ix).
Proof.
  induction ix as [|i ix IH]; [reflexivity|].
  simpl. rewrite fetch_app, IH. simpl. destruct (ds !! i); simpl.
  - reflexivity.
  - now rewrite app_nil_r.
Qed.

Lemma fetch_length ds ix :
  Forall (fun i => (i < length ds)%nat) ix -> length (fetch ds ix) = length ix.
Proof.
  induction 1 as [|i ix Hi _ IH]; [reflexivity|]. simpl.
  destruct (lookup_lt_is_Some_2 ds i Hi) as [x ->]. simpl. now rewrite IH.
Qed.

Lemma fetch_batch_up ds (b : nat) ix :
  forall acc,
    Forall (fun i => (i < length ds)%nat) acc ->
    Forall (fun i => (i < length ds)%nat) ix ->
    map (fetch ds) (batch_up b acc ix) = batch_up b (fetch ds acc) (fetch ds ix).
Proof.
  induction ix as [|i ix IH]; intros acc Hacc Hix.
  - destruct acc as [|j acc]; [reflexivity|].
    inversion Hacc as [|? ? Hj Hacc']; subst.
    destruct (lookup_lt_is_Some_2 ds j Hj) as [x Hx].
    cbn [batch_up map fetch]. rewrite fetch_rev. cbn [fetch]. now rewrite Hx.
  - inversion Hix as [|? ? Hi Hix']; subst.
    destruct (lookup_lt_is_Some_2 ds i Hi) as [x Hx].
    cbn [batch_up fetch]. rewrite Hx. cbn [batch_up].
    rewrite (fetch_length ds acc Hacc).
    destruct (S (length acc) =? b)%nat.
    + cbn [map]. rewrite IH by (auto; constructor).
      f_equal. rewrite fetch_rev. cbn [fetch]. now rewrite Hx.
    + rewrite IH by (auto; constructor; auto). cbn [fetch]. now rewrite Hx.
Qed.

Lemma fetch_seq ds :
  forall pre, fetch (pre ++ ds) (seq (length pre) (length ds)) = ds.
Proof.
  induction ds as [|x ds IH]; intros pre; [reflexivity|].
  simpl. rewrite list_lookup_middle by reflexivity. f_equal.
  specialize (IH (pre ++ [x])). rewrite <- app_assoc in IH. simpl in IH.
  rewrite length_app in IH. simpl in IH.
  now rewrite Nat.add_1_r in IH.
Qed.

Lemma seq_in_range n : Forall (fun i => (i < n)%nat) (seq 0 n).
Proof. apply Forall_forall. intros i Hi. apply elem_of_seq in Hi. lia. Qed.


End Fetch.

(** ** The epoch loop *)

Section Loop.
Context (W : Torch).

Lemma range_nonpos n : n <= 0 -> range n = [].
Proof. intros H. unfold range. now replace (Z.to_nat n) with 0%nat by lia. Qed.

Lemma range_succ n : 0 <= n -> range (n + 1) = range n ++ [n].
Proof.
  intros H. unfold range. replace (Z.to_nat (n + 1)) with (S (Z.to_nat n)) by lia.
  rewrite seq_S, map_app. simpl. f_equal. f_equal. lia.
Qed.

Lemma range_length n : length (range n) = Z.to_nat n.
Proof. unfold range. now rewrite length_map, length_seq. Qed.

Lemma truediv_Float a b v : truediv a b = Ok v -> exists f, v = Float f.
Proof.
  unfold truediv, as_num. intros H.
  destruct a, b;
    match type of H with
    | match ?x with _ => _ end = _ => destruct x; inversion H; eauto
    end.
Qed.

Lemma report_Float total correct n mean pct :
  report total correct n = Ok (mean, pct) -> exists f, mean = Float f.
Proof.
  unfold report. destruct (truediv total (Int n)) as [m|] eqn:Hm; [|discriminate].
  destruct (mul _ _) as [scaled|]; [|discriminate].
  destruct (truediv scaled _); [|discriminate].
  intros [= <- _]. eapply truediv_Float, Hm.
Qed.

(** What [test] returns is a float and is the loss of the line it
    prints. *)
Lemma test_Ok dev dl epoch s v s' o :
  test W dev dl epoch s = (Ok v, s', o) ->
  exists f correct pct,
    v = Float f /\
    o = [PrintTest v correct (dataset_len W dl) pct;
         WandbLog {[ "test_loss" := VNum v ]}].
Proof.
  rewrite test_eq. destruct (pass W dl _) as [bs s1].
  destruct (eval_batches _ _ _ _ _) as [[[[total correct]|e] s2] o']; [|discriminate].
  destruct (report _ _ _) as [[mean pct]|e] eqn:Hr; [|discriminate].
  intros [= <- <- <-]. destruct (report_Float _ _ _ _ _ Hr) as [f ->].
  exists f, correct, pct. auto.
Qed.

Lemma test_Raise dev dl epoch s e s' o :
  test W dev dl epoch s = (Raise e, s', o) -> o = [].
Proof.
  rewrite test_eq. destruct (pass W dl _) as [bs s1].
  destruct (eval_batches _ _ _ _ _) as [[[[total correct]|e'] s2] o'].
  - destruct (report _ _ _) as [[mean pct]|e']; [discriminate|]. now intros [= _ _ <-].
  - now intros [= _ _ <-].
Qed.

Lemma epoch_loop_app args dev trl tel es1 es2 :
  forall l0 s,
    epoch_loop W args dev trl tel (es1 ++ es2) l0 s
    = bind (epoch_loop W args dev trl tel es1 l0)
        (fun l1 => epoch_loop W args dev trl tel es2 l1) s.
Proof.
  induction es1 as [|e es1 IH]; intros l0 s.
  - simpl. now rewrite ret_bind.
  - simpl. rewrite bind_assoc. apply bind_ext. intros _ s1.
    rewrite bind_assoc. apply bind_ext. intros v s2.
    rewrite bind_assoc. apply bind_ext. intros _ s3.
    apply IH.
Qed.

(** The last epoch of a completed loop: its trainer, its evaluator whose
    loss the loop returns, and the scheduler step. *)
Lemma epoch_loop_last args dev trl tel es e l0 s v s' o :
  epoch_loop W args dev trl tel (es ++ [e]) l0 s = (Ok v, s', o) ->
  exists l1 s1 o1 s2 o2 s3 o3,
    epoch_loop W args dev trl tel es l0 s = (Ok l1, s1, o1) /\
    train W args dev trl e s1 = (Ok tt, s2, o2) /\
    test W dev tel e s2 = (Ok v, s3, o3) /\
    scheduler_step W 1 (gamma args) s3 = (Ok tt, s', []) /\
    o = o1 ++ o2 ++ o3.
Proof.
  rewrite epoch_loop_app. intros H. bind_inv H.
  simpl in Hk. bind_inv Hk. destruct a0.
  bind_inv Hk0. bind_inv Hk.
  destruct a1. inversion Hk0; subst. inversion Hm2; subst.
  repeat eexists; eauto. now rewrite !app_nil_r.
Qed.

End Loop.

(** ** The loaders of [objective] (C3) *)



(** ** The evaluator leaves the model alone (C7) *)

(** C7.  Whatever [test] does, returning or raising, the parameters of
    the model, its gradient buffers, the learning rate and the moments of
    the optimizer and the counter of the scheduler are afterwards what
    they were before.  (Every forward pass of the evaluator is made with
    gradient recording off, see [eval_batches]; the only thing [test]
    sets on the model is its evaluation flag.) *)
Theorem test_leaves_model_untouched (W : Torch) (dev : device)
    (dl : DataLoader W) (epoch : Z) (s : State W) :
  let '(_, s', _) := test W dev dl epoch s in
  st_params s' = st_params s
  /\ st_grads s' = st_grads s
  /\ st_lr s' = st_lr s
  /\ st_opt s' = st_opt s
  /\ st_last_epoch s' = st_last_epoch s
  /\ st_training s' = false.
Proof.
  destruct (test W dev dl epoch s) as [[r s'] o] eqn:H.
  pose proof (preserves_test
    (fun s => (st_params s, st_grads s, st_lr s, st_opt s, st_last_epoch s))
    (fun _ _ => eq_refl) (fun _ _ => eq_refl) dev dl epoch s r s' o H) as Hp.
  injection Hp as -> -> -> -> ->. repeat split; try reflexivity.
  rewrite test_eq in H.
  pose proof (iterate_pass W dl (set_training W false s)) as Hit.
  apply (preserves_iterate (@st_training W) (fun _ _ => eq_refl)) in Hit.
  destruct (pass W dl _) as [bs s1]. simpl in Hit.
  destruct (eval_batches W (Int 0) 0 bs s1) as [[rb s2] ob] eqn:He.
  apply (preserves_eval_batches (@st_training W) (fun _ _ => eq_refl)) in He.
  assert (s' = s2) as ->.
  { destruct rb as [[total correct]|e].
    - destruct (report _ _ _) as [[mean pct]|e]; now injection H.
    - now injection H. }
  congruence.
Qed.

(** ** Two runs of one proposal (C8) *)

(** C8.  [objective] reads nothing of the state it is started in: it
    re-seeds the generator with the fixed seed 1 and builds a new model,
    optimizer and scheduler.  So two invocations with the same proposal,
    started in any two states, return the same loss (or raise the same
    exception) and write the same events; when they return, they also
    leave the same state. *)
Theorem objective_reproducible (W : Torch) (trial : Trial) (s1 s2 : State W) :
  let '(r1, t1, o1) := objective W trial s1 in
  let '(r2, t2, o2) := objective W trial s2 in
  r1 = r2 /\ o1 = o2 /\ (forall v, r1 = Ok v -> t1 = t2).
Proof.
  destruct (fleb f0 (lr (objective_args trial))) eqn:Hlr.
  - rewrite !objective_unfold by exact Hlr.
    destruct (epoch_loop _ _ _ _ _ _ _ _) as [[[v|e] s'] o]; auto.
  - destruct (objective_rejects W trial s1 Hlr) as [t1 ->].
    destruct (objective_rejects W trial s2 Hlr) as [t2 ->].
    repeat split. discriminate.
Qed.

(** ** The default loss (C10) *)

(** C10.  With a proposal of zero (or fewer) epochs the loop body never
    runs and [objective] returns the int 1000000 it initialised
    [test_loss] with, having opened and closed the tracker and written
    nothing else.  With one epoch or more, a returned value is never
    that default: it is the float of the last line the evaluator
    printed.  (The learning rate is one the optimizer accepts.) *)
Theorem objective_default_loss (W : Torch) (trial : Trial) (s : State W) :
  fleb f0 (lr (objective_args trial)) = true ->
  (epochs (objective_args trial) <= 0 ->
   objective W trial s
   = (Ok (Int 1000000), run_state W trial,
      [WandbInit "plr_exercise" (wandb_config (objective_args trial));
       WandbLogCode; WandbFinish]))
  /\ (1 <= epochs (objective_args trial) ->
      forall v s' o,
        objective W trial s = (Ok v, s', o) ->
        v <> Int 1000000
        /\ exists pre correct n pct,
             o = pre ++ [PrintTest v correct n pct;
                         WandbLog {[ "test_loss" := VNum v ]};
                         WandbFinish]).
Proof.
  intros Hlr. split.
  - intros He. rewrite objective_unfold by exact Hlr.
    now rewrite range_nonpos by exact He.
  - intros He v s' o. rewrite objective_unfold by exact Hlr.
    replace (epochs (objective_args trial))
      with (epochs (objective_args trial) - 1 + 1) by lia.
    rewrite range_succ by lia.
    destruct (epoch_loop _ _ _ _ _ _ _ _) as [[[v'|e] s2] o2] eqn:Hloop;
      [|discriminate].
    intros [= -> -> <-].
    apply epoch_loop_last in Hloop.
    destruct Hloop as (l1 & t1 & o1 & t2 & o3 & t3 & o4 & _ & _ & Htest & _ & ->).
    apply test_Ok in Htest. destruct Htest as (f & correct & pct & -> & ->).
    split; [discriminate|].
    eexists (_ :: _ :: o1 ++ o3), correct, _, pct.
    simpl. now rewrite <- !app_assoc.
Qed.

(** The toy world, asked for zero epochs. *)
Lemma objective_default_loss_witness :
  fleb f0 (lr (objective_args (proposal 0 f0_5))) = true
  /\ objective toy (proposal 0 f0_5) (stale toy 0 0 0)
     = (Ok (Int 1000000), run_state toy (proposal 0 f0_5),
        [WandbInit "plr_exercise" (wandb_config (objective_args (proposal 0 f0_5)));
         WandbLogCode; WandbFinish]).
Proof.
  split; [reflexivity|].
  apply (objective_default_loss toy (proposal 0 f0_5) (stale toy 0 0 0) eq_refl).
  simpl. lia.
Defined.

(** ** The learning-rate schedule (C5) *)

Section Schedule.
Context (W : Torch).

Lemma scheduler_step_decays g (s : State W) :
  0 <= st_last_epoch s ->
  scheduler_step W 1 g s
  = (Ok tt, set_schedule W (st_last_epoch s + 1) (fmul (st_lr s) g) s, []).
Proof.
  intros H. unfold scheduler_step.
  replace (st_last_epoch s + 1 =? 0) with false by (symmetry; apply Z.eqb_neq; lia).
  now rewrite Z.mod_1_r.
Qed.

Lemma geometric_lr_succ g l k :
  geometric_lr g (fmul l g) k = geometric_lr g l (S k).
Proof. unfold geometric_lr. now rewrite Nat.iter_succ_r. Qed.

(** However far the loop gets, the learning rate has been multiplied by
    [gamma] once for every epoch completed and by nothing else. *)
Lemma epoch_loop_schedule args dev trl tel es :
  forall l0 s r s' o,
    0 <= st_last_epoch s ->
    epoch_loop W args dev trl tel es l0 s = (r, s', o) ->
    exists k : nat,
      (k <= length es)%nat
      /\ st_lr s' = geometric_lr (gamma args) (st_lr s) k
      /\ st_last_epoch s' = st_last_epoch s + Z.of_nat k
      /\ (forall v, r = Ok v -> k = length es).
Proof.
  induction es as [|e es IH]; intros l0 s r s' o Hs H.
  - injection H as <- <- _. exists 0%nat. simpl. repeat split; auto; lia.
  - simpl in H.
    assert (Hfail : forall x, r = Raise x ->
              (st_lr s', st_last_epoch s') = (st_lr s, st_last_epoch s) ->
              exists k : nat,
                (k <= length (e :: es))%nat
                /\ st_lr s' = geometric_lr (gamma args) (st_lr s) k
                /\ st_last_epoch s' = st_last_epoch s + Z.of_nat k
                /\ (forall v, r = Ok v -> k = length (e :: es))).
    { intros x -> [= -> ->]. exists 0%nat. simpl.
      repeat split; auto; try lia. discriminate. }
    bind_inv H.
    + pose proof (preserves_train (fun s => (st_lr s, st_last_epoch s))
        (fun _ _ => eq_refl) (fun _ _ => eq_refl) (fun _ _ => eq_refl)
        (fun _ _ _ => eq_refl) _ _ _ _ _ _ _ _ Hm) as Htr.
      bind_inv Hk.
      * pose proof (preserves_test (fun s => (st_lr s, st_last_epoch s))
          (fun _ _ => eq_refl) (fun _ _ => eq_refl) _ _ _ _ _ _ _ Hm0) as Hte.
        injection Htr as Hlr1 Hle1. injection Hte as Hlr2 Hle2.
        unfold bind in Hk0.
        rewrite scheduler_step_decays in Hk0 by lia.
        destruct (epoch_loop _ _ _ _ _ _ _ _) as [[r3 s3] o3] eqn:Hloop.
        injection Hk0 as <- <- ->.
        apply IH in Hloop; [|simpl; lia].
        destruct Hloop as (k & Hk & Hlr & Hle & Hok). simpl in Hlr, Hle.
        exists (S k). simpl length. repeat split.
        -- lia.
        -- rewrite Hlr, Hlr2, Hlr1. apply geometric_lr_succ.
        -- lia.
        -- intros v Hv. f_equal. eauto.
      * pose proof (preserves_test (fun s => (st_lr s, st_last_epoch s))
          (fun _ _ => eq_refl) (fun _ _ => eq_refl) _ _ _ _ _ _ _ Hm0) as Hte.
        apply (Hfail e0 Hr). congruence.
    + apply (Hfail e0 Hr).
      exact (preserves_train (fun s => (st_lr s, st_last_epoch s))
        (fun _ _ => eq_refl) (fun _ _ => eq_refl) (fun _ _ => eq_refl)
        (fun _ _ _ => eq_refl) _ _ _ _ _ _ _ _ Hm).
Qed.

End Schedule.

Lemma range_take_drop k n :
  0 <= k <= n -> range n = range k ++ drop (Z.to_nat k) (range n).
Proof.
  intros H. rewrite <- (take_drop (Z.to_nat k) (range n)) at 1. f_equal.
  unfold range. rewrite firstn_map, take_seq. do 2 f_equal. lia.
Qed.

(** C5.  Take the training run [objective] starts for a proposal and run
    its first [k] epochs.  However the losses came out, when these
    epochs complete the learning rate of the optimizer is the proposed
    learning rate multiplied [k] times by 0.7 (each product a binary64
    product, as the scheduler computes it) and the scheduler has counted
    [k] epochs; had an epoch failed, as many factors as epochs were
    completed would have been applied.  The state reached is the one the
    full run continues from. *)
Theorem learning_rate_is_geometric (W : Torch) (trial : Trial) (k : Z) :
  0 <= k <= epochs (objective_args trial) ->
  let loop := epoch_loop W (objective_args trial) (objective_device W trial)
                (objective_train_loader W trial) (objective_test_loader W trial) in
  let '(r, s', o) := loop (range k) (Int 1000000) (run_state W trial) in
  (exists j : nat,
      (j <= Z.to_nat k)%nat
      /\ st_lr s' = geometric_lr f0_7 (lr (objective_args trial)) j
      /\ st_last_epoch s' = Z.of_nat j
      /\ (forall l, r = Ok l -> j = Z.to_nat k))
  /\ (forall l, r = Ok l ->
      loop (range (epochs (objective_args trial))) (Int 1000000) (run_state W trial)
      = let '(r2, s2, o2) :=
          loop (drop (Z.to_nat k) (range (epochs (objective_args trial)))) l s' in
        (r2, s2, o ++ o2)).
Proof.
  intros Hk loop. subst loop.
  destruct (epoch_loop _ _ _ _ _ (range k) _ _) as [[r s'] o] eqn:H. split.
  - pose proof H as H'. apply epoch_loop_schedule in H'.
    + destruct H' as (j & Hj & Hlr & Hle & Hok). exists j.
      rewrite range_length in Hj, Hok.
      unfold run_state in Hlr, Hle.
      destruct (net_init W (manual_seed W 1)) as [p g]. simpl in Hlr, Hle.
      repeat split; auto.
    + unfold run_state. destruct (net_init W (manual_seed W 1)) as [p g].
      simpl. lia.
  - intros l ->. rewrite (range_take_drop k _ Hk) at 1.
    rewrite epoch_loop_app. unfold bind. now rewrite H.
Qed.

(** The toy world after two of three epochs. *)
Lemma learning_rate_is_geometric_witness :
  0 <= 2 <= epochs (objective_args (proposal 3 f0_5))
  /\ let loop := epoch_loop toy (objective_args (proposal 3 f0_5))
                   (objective_device toy (proposal 3 f0_5))
                   (objective_train_loader toy (proposal 3 f0_5))
                   (objective_test_loader toy (proposal 3 f0_5)) in
     let '(r, s', o) := loop (range 2) (Int 1000000) (run_state toy (proposal 3 f0_5)) in
     (exists j : nat,
         (j <= Z.to_nat 2)%nat
         /\ st_lr s' = geometric_lr f0_7 (lr (objective_args (proposal 3 f0_5))) j
         /\ st_last_epoch s' = Z.of_nat j
         /\ (forall l, r = Ok l -> j = Z.to_nat 2))
     /\ (forall l, r = Ok l ->
         loop (range (epochs (objective_args (proposal 3 f0_5)))) (Int 1000000)
           (run_state toy (proposal 3 f0_5))
         = let '(r2, s2, o2) :=
             loop (drop (Z.to_nat 2) (range (epochs (objective_args (proposal 3 f0_5)))))
               l s' in
           (r2, s2, o ++ o2)).
Proof.
  assert (H : 0 <= 2 <= epochs (objective_args (proposal 3 f0_5))).
  { cbn [epochs objective_args proposal suggest_int]. lia. }
  split; [exact H|].
  exact (learning_rate_is_geometric toy (proposal 3 f0_5) 2 H).
Defined.

(** ** What a run sends to the tracker *)

Section Tracker.
Context (W : Torch).

Lemma emits_weaken {A} (P Q : event -> Prop) (m : M W A) :
  (forall e, P e -> Q e) -> emits P m -> emits Q m.
Proof. intros HPQ Hm s r s' o H. eapply Forall_impl; [exact (Hm _ _ _ _ H)|exact HPQ]. Qed.

Lemma last_cons {A} (l : list A) :
  forall x d, List.last (x :: l) d = List.last l x.
Proof.
  induction l as [|a l IH]; intros x d; [reflexivity|].
  change (List.last (x :: a :: l) d) with (List.last (a :: l) d).
  now rewrite !IH.
Qed.

Lemma log_records_app o1 o2 :
  log_records (o1 ++ o2) = log_records o1 ++ log_records o2.
Proof. unfold log_records. apply flat_map_app. Qed.

Lemma log_records_prints o : Forall is_print_train o -> log_records o = [].
Proof.
  induction 1 as [|e o He _ IH]; [reflexivity|].
  destruct e; try contradiction. exact IH.
Qed.

(** [train] writes progress lines and, if it gets to its end, one
    record holding the training loss. *)
Lemma train_events args dev dl epoch s r s' o :
  train W args dev dl epoch s = (r, s', o) ->
  exists prints,
    Forall is_print_train prints
    /\ ((exists mean, r = Ok tt /\ o = prints ++ [WandbLog {[ "train_loss" := VNum mean ]}])
        \/ (exists e, r = Raise e /\ o = prints)).
Proof.
  rewrite train_eq. destruct (pass W dl _) as [bs s1].
  destruct (train_batches _ _ _ _ _ _ _ _) as [[rb s2] prints] eqn:Hb.
  pose proof (train_batches_prints _ _ _ _ _ _ _ _ _ _ Hb) as Hp.
  intros H. exists prints. split; [exact Hp|]. revert H.
  destruct rb as [[]|e].
  - destruct (pass W dl s2) as [bs' s3].
    destruct (eval_batches _ _ _ _ _) as [[[[total c]|e] s4] o'].
    + destruct (truediv _ _) as [mean|e]; intros [= <- <- <-]; eauto.
    + intros [= <- <- <-]; eauto.
  - intros [= <- <- <-]; eauto.
Qed.

Lemma train_emits args dev dl epoch :
  emits is_epoch_event (train W args dev dl epoch).
Proof.
  intros s r s' o H. apply train_events in H.
  destruct H as (prints & Hp & [(mean & _ & ->)|(e & _ & ->)]).
  - apply Forall_app. split.
    + eapply Forall_impl; [exact Hp|]. now intros [].
    + repeat constructor.
  - eapply Forall_impl; [exact Hp|]. now intros [].
Qed.

Lemma test_emits dev dl epoch : emits is_epoch_event (test W dev dl epoch).
Proof.
  intros s [v|e] s' o H.
  - apply test_Ok in H. destruct H as (f & c & pct & _ & ->). repeat constructor.
  - apply test_Raise in H. subst. constructor.
Qed.

Lemma epoch_loop_emits args dev trl tel es :
  forall l0, emits is_epoch_event (epoch_loop W args dev trl tel es l0).
Proof.
  induction es as [|e es IH]; intros l0; simpl.
  - apply emits_ret.
  - apply emits_bind; [apply train_emits|]. intros _.
    apply emits_bind; [apply test_emits|]. intros v.
    apply emits_bind; [|intros _; apply IH].
    intros s r s' o [= _ _ <-]. constructor.
Qed.

(** A completed loop has written the two records of each of its epochs,
    in the order of the epochs: after the first [k] epochs the first [k]
    pairs are out.  The loss it returns is the last test loss written. *)
Lemma epoch_loop_records args dev trl tel es :
  forall l0 s v s' o,
    epoch_loop W args dev trl tel es l0 s = (Ok v, s', o) ->
    exists recs : list (num * num),
      length recs = length es
      /\ log_records o = flat_map epoch_records recs
      /\ v = List.last (map snd recs) l0
      /\ forall k : nat, (k <= length es)%nat ->
           exists lk sk ok,
             epoch_loop W args dev trl tel (take k es) l0 s = (Ok lk, sk, ok)
             /\ log_records ok = flat_map epoch_records (take k recs).
Proof.
  induction es as [|e es IH]; intros l0 s v s' o H.
  - injection H as <- <- <-. exists []. repeat split; auto.
    intros k Hk. exists l0, s, []. now destruct k.
  - simpl in H. bind_inv H. destruct a.
    bind_inv Hk. bind_inv Hk0. destruct a0.
    injection Hm1 as <- <-.
    apply train_events in Hm as Htr.
    destruct Htr as (prints & Hp & [(mean & _ & ->)|(x & [=] & _)]).
    apply test_Ok in Hm0 as Hte. destruct Hte as (f & c & pct & -> & ->).
    apply IH in Hk. destruct Hk as (recs & Hlen & Hrec & Hv & Hpre).
    exists ((mean, Float f) :: recs). repeat split.
    + simpl. now rewrite Hlen.
    + rewrite !log_records_app, (log_records_prints _ Hp), Hrec. reflexivity.
    + rewrite Hv. cbn [map snd]. now rewrite last_cons.
    + intros [|k] Hk.
      * exists l0, s, []. auto.
      * destruct (Hpre k) as (lk & sk & ok & Hloop & Hok); [simpl in Hk; lia|].
        simpl take. simpl epoch_loop.
        rewrite (bind_Ok _ _ _ _ _ _ Hm), (bind_Ok _ _ _ _ _ _ Hm0).
        unfold bind, scheduler_step. simpl. unfold scheduler_step in Hloop.
        simpl in Hloop. rewrite Hloop.
        do 3 eexists. split; [reflexivity|].
        rewrite !log_records_app, (log_records_prints _ Hp).
        change (log_records (PrintTest (Float f) c (dataset_len W tel) pct
                  :: WandbLog {[ "test_loss" := VNum (Float f) ]} :: ok))
          with ({[ "test_loss" := VNum (Float f) ]} :: log_records ok).
        now rewrite Hok.
Qed.

End Tracker.

(** ** The records of a full run *)

Lemma epoch_records_keys (recs : list (num * num)) :
  Forall (fun r : gmap string value =>
            size r = 1%nat /\ r !! "epoch" = None /\ r !! "accuracy" = None)
    (flat_map epoch_records recs).
Proof.
  induction recs as [|[a b] recs IH]; [constructor|].
  simpl. repeat constructor; try apply map_size_singleton; try exact IH.
Qed.

Lemma triple_eta {A B C} (x : A * B * C) : x = (fst (fst x), snd (fst x), snd x).
Proof. now destruct x as [[a b] c]. Qed.

Lemma objective_records (W : Torch) (trial : Trial)
    (s : State W) (v : num) (s' : State W) (o : list event) :
  objective W trial s = (Ok v, s', o) ->
  exists recs : list (num * num),
    length recs = Z.to_nat (epochs (objective_args trial))
    /\ log_records o = flat_map epoch_records recs
    /\ v = List.last (map snd recs) (Int 1000000)
    /\ forall k : nat,
         (k <= Z.to_nat (epochs (objective_args trial)))%nat ->
         exists lk sk ok,
           epoch_loop W (objective_args trial) (objective_device W trial)
             (objective_train_loader W trial) (objective_test_loader W trial)
             (range (Z.of_nat k)) (Int 1000000) (run_state W trial)
           = (Ok lk, sk, ok)
           /\ log_records ok = flat_map epoch_records (take k recs).
Proof.
  intros H.
  destruct (fleb f0 (lr (objective_args trial))) eqn:Hlr.
  2:{ destruct (objective_rejects W trial s Hlr) as [t Ht]. congruence. }
  rewrite (objective_unfold W trial s Hlr) in H.
  destruct (epoch_loop _ _ _ _ _ _ _ _) as [[[v'|e] s2] o2] eqn:Hloop;
    [|discriminate].
  injection H as <- <- <-.
  apply epoch_loop_records in Hloop.
  destruct Hloop as (recs & Hlen & Hrec & Hv & Hpre).
  rewrite range_length in Hlen, Hpre.
  exists recs. repeat split; auto.
  - change (log_records (?a :: ?b :: ?c)) with (log_records c).
    rewrite log_records_app, Hrec. apply app_nil_r.
  - intros k Hk. destruct (Hpre k Hk) as (lk & sk & ok & Hl & Hr).
    exists lk, sk, ok. split; [|exact Hr]. rewrite <- Hl. f_equal.
    unfold range. rewrite firstn_map, take_seq. do 2 f_equal. lia.
Qed.

Lemma epoch_records_count (recs : list (num * num)) :
  length (flat_map epoch_records recs) = (2 * length recs)%nat.
Proof.
  induction recs as [|r recs IH]; [reflexivity|]. simpl. rewrite IH. lia.
Qed.

(** Three epochs in the toy world return the float 1.0. *)
Lemma toy_three_epochs :
  objective toy (proposal 3 f0_5) (stale toy 0 0 0)
  = (Ok (Float f1),
     snd (fst (objective toy (proposal 3 f0_5) (stale toy 0 0 0))),
     snd (objective toy (proposal 3 f0_5) (stale toy 0 0 0))).
Proof.
  rewrite (triple_eta (objective toy (proposal 3 f0_5) (stale toy 0 0 0))) at 1.
  do 2 f_equal; vm_compute; reflexivity.
Qed.

(** A full run of [E] epochs sends [2 E]
    records to the tracker, two per epoch and in the order of the
    epochs: the training loss, then the test loss of that epoch (after
    [k] epochs the first [k] pairs are out).  A record holds that one
    loss and nothing else, neither an epoch index nor an accuracy.  The
    last test loss written is the loss [objective] returns. *)
Theorem metric_records_two_per_epoch (W : Torch) (trial : Trial)
    (s : State W) (v : num) (s' : State W) (o : list event) :
  objective W trial s = (Ok v, s', o) ->
  exists recs : list (num * num),
    length recs = Z.to_nat (epochs (objective_args trial))
    /\ log_records o = flat_map epoch_records recs
    /\ length (log_records o) = (2 * Z.to_nat (epochs (objective_args trial)))%nat
    /\ Forall (fun r : gmap string value =>
                 size r = 1%nat /\ r !! "epoch" = None /\ r !! "accuracy" = None)
         (log_records o)
    /\ v = List.last (map snd recs) (Int 1000000)
    /\ forall k : nat,
         (k <= Z.to_nat (epochs (objective_args trial)))%nat ->
         exists lk sk ok,
           epoch_loop W (objective_args trial) (objective_device W trial)
             (objective_train_loader W trial) (objective_test_loader W trial)
             (range (Z.of_nat k)) (Int 1000000) (run_state W trial)
           = (Ok lk, sk, ok)
           /\ log_records ok = flat_map epoch_records (take k recs).
Proof.
  intros H. apply objective_records in H.
  destruct H as (recs & Hlen & Hrec & Hv & Hpre).
  exists recs. rewrite Hrec. repeat split; auto.
  - now rewrite epoch_records_count, Hlen.
  - apply epoch_records_keys.
Qed.

(** Three epochs in the toy world. *)
Lemma metric_records_two_per_epoch_witness :
  let res := objective toy (proposal 3 f0_5) (stale toy 0 0 0) in
  exists recs : list (num * num),
    length recs = 3%nat
    /\ log_records (snd res) = flat_map epoch_records recs.
Proof.
  intros res.
  destruct (metric_records_two_per_epoch toy (proposal 3 f0_5) (stale toy 0 0 0)
              (Float f1) (snd (fst res)) (snd res) toy_three_epochs)
    as (recs & Hlen & Hrec & _).
  exists recs. split; [exact Hlen | exact Hrec].
Defined.

(** Three epochs in the toy world: six records are written, not three,
    and none of them holds an epoch index or an accuracy. *)
Lemma metric_records_not_as_specified :
  exists v s' o,
    objective toy (proposal 3 f0_5) (stale toy 0 0 0) = (Ok v, s', o)
    /\ ~ (length (log_records o) = 3%nat
          /\ Forall (fun r : gmap string value =>
                       is_Some (r !! "epoch") /\ is_Some (r !! "train_loss")
                       /\ is_Some (r !! "test_loss") /\ is_Some (r !! "accuracy"))
               (log_records o))
    /\ length (log_records o) = 6%nat
    /\ Forall (fun r : gmap string value =>
                 r !! "epoch" = None /\ r !! "accuracy" = None)
         (log_records o).
Proof.
  eexists _, _, _. split; [exact toy_three_epochs|].
  destruct (objective_records _ _ _ _ _ _ toy_three_epochs)
    as (recs & Hlen & Hrec & _).
  rewrite Hrec, epoch_records_count, Hlen. clear Hrec Hlen.
  split; [|split].
  - intros [H _]. discriminate H.
  - reflexivity.
  - eapply Forall_impl; [apply epoch_records_keys|].
    intros r (_ & H1 & H2). split; assumption.
Qed.

(** ** The tracker session *)

(** An invocation whose learning rate the
    optimizer accepts opens one tracker session, after the loaders, the
    model and the optimizer are built and before the first epoch, and
    writes only progress lines, summaries and loss records after that.
    It closes the session when, and only when, every epoch completed: an
    exception raised in an epoch leaves [objective] with the session
    open.  An invocation the optimizer rejects opens no session. *)
Theorem tracker_session (W : Torch) (trial : Trial) (s : State W) :
  let '(r, s', o) := objective W trial s in
  if fleb f0 (lr (objective_args trial))
  then exists mid,
         Forall is_epoch_event mid
         /\ o = WandbInit "plr_exercise" (wandb_config (objective_args trial))
                  :: WandbLogCode
                  :: mid ++ (match r with Ok _ => [WandbFinish] | Raise _ => [] end)
  else r = Raise ValueError /\ o = [].
Proof.
  destruct (fleb f0 (lr (objective_args trial))) eqn:Hlr.
  - rewrite (objective_unfold W trial s Hlr).
    destruct (epoch_loop _ _ _ _ _ _ _ _) as [[r s2] mid] eqn:Hloop.
    apply epoch_loop_emits in Hloop.
    destruct r as [v|e]; exists mid; split; auto. now rewrite app_nil_r.
  - destruct (objective_rejects W trial s Hlr) as [t ->]. auto.
Qed.

(** When a forward pass raises in the toy world, the exception leaves
    [objective] after the session was opened and the session is never
    closed. *)
Lemma tracker_session_left_open :
  let '(r, _, o) := objective toy_failing (proposal 3 f0_5) (stale toy_failing 0 0 0) in
  r = Raise RuntimeError
  /\ (exists config rest, o = WandbInit "plr_exercise" config :: rest)
  /\ ~ In WandbFinish o.
Proof.
  rewrite (objective_unfold toy_failing (proposal 3 f0_5) _ eq_refl).
  destruct (epoch_loop _ _ _ _ _ _ _ _) as [[r s'] o] eqn:Hloop.
  assert (Hr : fst (fst (epoch_loop toy_failing (objective_args (proposal 3 f0_5))
                           (objective_device toy_failing (proposal 3 f0_5))
                           (objective_train_loader toy_failing (proposal 3 f0_5))
                           (objective_test_loader toy_failing (proposal 3 f0_5))
                           (range (epochs (objective_args (proposal 3 f0_5))))
                           (Int 1000000) (run_state toy_failing (proposal 3 f0_5))))
               = Raise RuntimeError) by (vm_compute; reflexivity).
  rewrite Hloop in Hr. simpl in Hr. subst r.
  apply epoch_loop_emits in Hloop.
  split; [reflexivity|]. split; [eauto|].
  intros [F|[F|F]]; try discriminate F.
  rewrite Forall_forall in Hloop. apply list_elem_of_In in F.
  exact (Hloop _ F).
Qed.

(** ** Small integers as floats *)

Lemma digits2_pos_bounds p :
  2 ^ (Zpos (digits2_pos p) - 1) <= Zpos p < 2 ^ Zpos (digits2_pos p).
Proof.
  induction p as [p IH|p IH|]; simpl digits2_pos; [| |simpl; lia].
  all: rewrite Pos2Z.inj_succ;
    replace (Z.succ (Zpos (digits2_pos p)) - 1) with (Zpos (digits2_pos p)) by lia;
    rewrite Z.pow_succ_r by lia;
    assert (H2 : 2 ^ Zpos (digits2_pos p) = 2 * 2 ^ (Zpos (digits2_pos p) - 1))
      by (rewrite <- Z.pow_succ_r by lia; f_equal; lia);
    rewrite H2 in *; lia.
Qed.

Lemma digits2_pos_shift p k :
  Zpos (digits2_pos (Pos.iter xO p k)) = Zpos (digits2_pos p) + Zpos k.
Proof.
  induction k as [|k IH] using Pos.peano_ind.
  - simpl. lia.
  - rewrite Pos.iter_succ. simpl digits2_pos. rewrite Pos2Z.inj_succ, IH. lia.
Qed.

(** A 53-bit mantissa with an exponent in range needs no rounding. *)
Lemma binary_round_aux_exact s m e :
  Zpos (digits2_pos m) = 53 -> -1074 <= e <= 971 ->
  binary_round_aux prec emax s (Zpos m) e loc_Exact = S754_finite s m e.
Proof.
  intros Hd He. unfold binary_round_aux, shr_fexp.
  cbn [Zdigits2 shr_record_of_loc]. rewrite Hd.
  assert (Hf : fexp prec emax (53 + e) = e) by (unfold fexp, emin, prec, emax; lia).
  rewrite Hf, Z.sub_diag.
  cbn [shr shr_m loc_of_shr_record round_nearest_even Zdigits2 shr_record_of_loc].
  rewrite Hd, Hf, Z.sub_diag. cbn [shr shr_m].
  replace (e <=? emax - prec) with true; [reflexivity|].
  symmetry. apply Z.leb_le. unfold emax, prec. lia.
Qed.

(** An int between 1 and 2^53 converts to a positive finite float. *)
Lemma Z2SF_small z :
  0 < z < 2 ^ 53 -> exists m e, Z2SF z = S754_finite false m e.
Proof.
  intros Hz. destruct z as [|p|p]; try lia.
  unfold Z2SF, binary_normalize, binary_round.
  pose proof (digits2_pos_bounds p) as Hb.
  assert (Hd : 1 <= Zpos (digits2_pos p) <= 53).
  { split; [lia|].
    destruct (Z_le_gt_dec (Zpos (digits2_pos p)) 53) as [|Hgt]; [assumption|].
    assert (2 ^ 53 <= 2 ^ (Zpos (digits2_pos p) - 1))
      by (apply Z.pow_le_mono_r; lia).
    lia. }
  assert (Hf : fexp prec emax (Zpos (digits2_pos p) + 0) = Zpos (digits2_pos p) - 53)
    by (unfold fexp, emin, prec, emax; lia).
  rewrite Hf. unfold shl_align.
  destruct (Zpos (digits2_pos p) - 53 - 0) as [|k|k] eqn:Hk; try lia.
  - rewrite binary_round_aux_exact; eauto; lia.
  - rewrite binary_round_aux_exact; eauto; [|lia].
    rewrite digits2_pos_shift. lia.
Qed.

Lemma float_of_int_small z :
  0 <= z < 2 ^ 53 ->
  float_of_int z = Ok (Z2SF z) /\ (0 < z -> is_zero (Z2SF z) = false).
Proof.
  intros Hz. destruct (Z.eq_dec z 0) as [->|Hnz].
  - split; [reflexivity|lia].
  - destruct (Z2SF_small z) as (m & e & H); [lia|].
    unfold float_of_int. rewrite H. auto.
Qed.

(** Dividing a float by an int between 1 and 2^53 does not raise. *)
Lemma truediv_Float_Int x n :
  0 < n < 2 ^ 53 -> truediv (Float x) (Int n) = Ok (Float (fdiv x (Z2SF n))).
Proof.
  intros Hn. destruct (float_of_int_small n) as [Hf Hz]; [lia|].
  unfold truediv, lift2, float_truediv. rewrite Hf, Hz by lia. reflexivity.
Qed.

Lemma mul_Float_Int x n :
  0 <= n < 2 ^ 53 -> mul (Float x) (Int n) = Ok (Float (fmul x (Z2SF n))).
Proof.
  intros Hn. destruct (float_of_int_small n) as [Hf _]; [lia|].
  unfold mul, lift2. now rewrite Hf.
Qed.

(** Whatever the divisor, a quotient by the int 0 is a
    ZeroDivisionError. *)
Lemma truediv_zero a : truediv a (Int 0) = Raise ZeroDivisionError.
Proof.
  destruct a as [i|x]; [reflexivity|].
  unfold truediv, lift2, float_truediv. reflexivity.
Qed.

(** NaN absorbs sums and quotients. *)
Lemma fadd_nan_l x : fadd S754_nan x = S754_nan.
Proof. reflexivity. Qed.

Lemma fadd_nan_r x : fadd x S754_nan = S754_nan.
Proof. now destruct x. Qed.

Lemma fdiv_nan_l x : fdiv S754_nan x = S754_nan.
Proof. reflexivity. Qed.

(** ** The update pass of [train] *)

Section UpdatePass.
Context (W : Torch).

(** Lines 28-47 on a loader that still has a batch to give. *)
Lemma train_batches_cons args epoch total nb idx data target rest s :
  train_batches W args epoch total nb idx ((data, target) :: rest) s =
  match forward W (st_params s) (st_training s) true (st_rng s) data with
  | (Raise e, g) => (Raise e, set_rng W g (set_grads W None s), [])
  | (Ok output, g) =>
      let s1 := updated W s output target g in
      match int_mod idx (log_interval args) with
      | Raise e => (Raise e, s1, [])
      | Ok r =>
          if r =? 0 then
            match mul (Float f100) (Int idx) with
            | Raise e => (Raise e, s1, [])
            | Ok scaled =>
                match truediv scaled (Int nb) with
                | Raise e => (Raise e, s1, [])
                | Ok pct =>
                    let line := PrintTrain epoch (idx * Z.of_nat (length data))
                                  total pct (nll_loss W Mean output target) in
                    if dry_run args then (Ok tt, s1, [line])
                    else
                      let '(r2, s2, o2) :=
                        train_batches W args epoch total nb (idx + 1) rest s1 in
                      (r2, s2, line :: o2)
                end
            end
          else train_batches W args epoch total nb (idx + 1) rest s1
      end
  end.
Proof.
  cbn [train_batches]. unfold bind, zero_grad, model_call, loss_backward,
    optimizer_step, lift, emit, ret, updated.
  cbn [st_params st_training st_rng st_grads st_lr st_opt set_grads set_rng].
  destruct (forward W _ _ _ _ _) as [[output|e] g]; [|reflexivity].
  cbn [st_params st_training st_rng st_grads st_lr st_opt set_grads set_rng].
  destruct (adam_step W _ _ _ _) as [p o].
  destruct (int_mod idx (log_interval args)) as [r|e]; [|reflexivity].
  destruct (r =? 0).
  - destruct (mul _ _) as [scaled|e]; [|reflexivity].
    destruct (truediv scaled _) as [pct|e]; [|reflexivity].
    destruct (dry_run args); [reflexivity|].
    destruct (train_batches _ _ _ _ _ _ _ _) as [[r2 s2] o2]. reflexivity.
  - destruct (train_batches _ _ _ _ _ _ _ _) as [[r2 s2] o2]. reflexivity.
Qed.

End UpdatePass.

(** ** [train]: progress lines, dry runs, a zero interval *)

Section TrainFacts.
Context (W : Torch).



End TrainFacts.


(** With the dry-run flag set, the update pass handles the first batch
    and stops: the batches after it are never looked at. *)
Theorem dry_run_stops_after_first_batch (W : Torch) (args : Args)
    (epoch total nb : Z) (b : batch W) (rest : list (batch W)) (s : State W) :
  dry_run args = true ->
  train_batches W args epoch total nb 0 (b :: rest) s
  = train_batches W args epoch total nb 0 [b] s.
Proof.
  intros Hdry. destruct b as [data target]. rewrite !train_batches_cons.
  destruct (forward W _ _ _ _ _) as [[output|e] g]; [|reflexivity].
  cbv zeta. unfold int_mod. destruct (log_interval args =? 0); [reflexivity|].
  rewrite Zmod_0_l. cbn [Z.eqb].
  destruct (mul _ _) as [scaled|e]; [|reflexivity].
  destruct (truediv scaled _) as [pct|e]; [|reflexivity].
  now rewrite Hdry.
Qed.

(** A dry run in the toy world, on two batches. *)
Lemma dry_run_stops_after_first_batch_witness :
  dry_run (train_args 10 true) = true
  /\ train_batches toy (train_args 10 true) 0 5 2 0
       [([0; 1], [0; 1]); ([2; 3], [2; 0])] (stale toy 0 0 0)
     = train_batches toy (train_args 10 true) 0 5 2 0
         [([0; 1], [0; 1])] (stale toy 0 0 0).
Proof.
  split; [reflexivity|].
  exact (dry_run_stops_after_first_batch toy (train_args 10 true) 0 5 2
           ([0; 1], [0; 1]) [([2; 3], [2; 0])] (stale toy 0 0 0) eq_refl).
Defined.

(** With a logging interval of 0 the update pass never gets past its
    first batch: [batch_idx % args.log_interval] raises
    ZeroDivisionError, after the parameters were updated on that batch
    and before anything is printed.  (If the forward pass fails, its
    exception comes first.) *)
Theorem zero_log_interval_raises (W : Torch) (args : Args)
    (epoch total nb idx : Z) (data : list (Image W)) (target : list Z)
    (rest : list (batch W)) (s : State W) :
  log_interval args = 0 ->
  train_batches W args epoch total nb idx ((data, target) :: rest) s
  = match forward W (st_params s) (st_training s) true (st_rng s) data with
    | (Ok output, g) => (Raise ZeroDivisionError, updated W s output target g, [])
    | (Raise e, g) => (Raise e, set_rng W g (set_grads W None s), [])
    end.
Proof.
  intros Hk. rewrite train_batches_cons.
  destruct (forward W _ _ _ _ _) as [[output|e] g]; [|reflexivity].
  cbv zeta. unfold int_mod. now rewrite Hk.
Qed.

(** An interval of 0 in the toy world. *)
Lemma zero_log_interval_raises_witness :
  log_interval (train_args 0 false) = 0
  /\ train_batches toy (train_args 0 false) 0 5 2 0
       (([0; 1], [0; 1]) :: [([2; 3], [2; 0])]) (stale toy 0 0 0)
     = (Raise ZeroDivisionError,
        updated toy (stale toy 0 0 0) [0; 1] [0; 1] 0, []).
Proof.
  split; [reflexivity|].
  exact (zero_log_interval_raises toy (train_args 0 false) 0 5 2 0
           [0; 1] [0; 1] [([2; 3], [2; 0])] (stale toy 0 0 0) eq_refl).
Defined.

(** [train] leaves the learning rate and the counter of the scheduler
    as they were and leaves the model in training mode, whether it
    returns or raises. *)
Theorem train_keeps_schedule (W : Torch) (args : Args) (dev : device)
    (dl : DataLoader W) (epoch : Z) (s : State W) :
  let '(_, s', _) := train W args dev dl epoch s in
  st_lr s' = st_lr s
  /\ st_last_epoch s' = st_last_epoch s
  /\ st_training s' = true.
Proof.
  destruct (train W args dev dl epoch s) as [[r s'] o] eqn:H.
  pose proof (preserves_train (fun s => (st_lr s, st_last_epoch s))
    (fun _ _ => eq_refl) (fun _ _ => eq_refl) (fun _ _ => eq_refl)
    (fun _ _ _ => eq_refl) _ _ _ _ _ _ _ _ H) as Hp.
  injection Hp as -> ->. repeat split.
  rewrite train_eq in H.
  pose proof (iterate_pass W dl (set_training W true s)) as Hit.
  apply (preserves_iterate (@st_training W) (fun _ _ => eq_refl)) in Hit.
  destruct (pass W dl _) as [bs s1]. simpl in Hit.
  destruct (train_batches _ _ _ _ _ _ _ _) as [[rb s2] ob] eqn:Hb.
  apply (preserves_train_batches (@st_training W) (fun _ _ => eq_refl)
           (fun _ _ => eq_refl) (fun _ _ _ => eq_refl)) in Hb.
  destruct rb as [[]|e]; [|injection H as _ <- _; congruence].
  pose proof (iterate_pass W dl s2) as Hit2.
  apply (preserves_iterate (@st_training W) (fun _ _ => eq_refl)) in Hit2.
  destruct (pass W dl s2) as [bs' s3]. simpl in Hit2.
  destruct (eval_batches _ _ _ _ _) as [[re s4] oe] eqn:He.
  apply (preserves_eval_batches (@st_training W) (fun _ _ => eq_refl)) in He.
  assert (s' = s4) as ->.
  { destruct re as [[total c]|e]; [|now injection H].
    destruct (truediv total _); now injection H. }
  congruence.
Qed.

(** ** Empty datasets *)

Lemma toy_world_shuffles cuda fails nan :
  shuffles_properly (toy_world cuda fails nan).
Proof. intros g n. simpl. symmetry. apply Permutation_rev. Qed.

Section Empty.
Context (W : Torch).

Lemma pass_empty (dl : DataLoader W) (s : State W) :
  dl_dataset dl = [] -> shuffles_properly W -> fst (pass W dl s) = [].
Proof.
  intros Hds Hperm. unfold pass, iterate. rewrite Hds. simpl.
  destruct (dl_shuffle dl); [|reflexivity].
  specialize (Hperm (st_rng s) 0%nat).
  destruct (randperm W (st_rng s) 0) as [p g]. simpl in Hperm.
  apply Permutation_nil_r in Hperm. now subst p.
Qed.

Lemma pass_state (dl : DataLoader W) (s : State W) {X} (proj : State W -> X) :
  (forall g s, proj (set_rng W g s) = proj s) ->
  proj (snd (pass W dl s)) = proj s.
Proof.
  intros Hproj.
  exact (preserves_iterate proj Hproj dl s _ _ _ (iterate_pass W dl s)).
Qed.

End Empty.

(** On an empty evaluation set [test] raises ZeroDivisionError at
    [test_loss /= len(test_loader.dataset)]: nothing is printed and
    nothing is sent to the tracker. *)
Theorem test_empty_dataset (W : Torch) (dev : device) (dl : DataLoader W)
    (epoch : Z) (s : State W) :
  dl_dataset dl = [] -> shuffles_properly W ->
  exists s', test W dev dl epoch s = (Raise ZeroDivisionError, s', []).
Proof.
  intros Hds Hperm. rewrite test_eq.
  pose proof (pass_empty W dl (set_training W false s) Hds Hperm) as Hp.
  destruct (pass W dl _) as [bs s1]. simpl in Hp. subst bs.
  cbn [eval_batches ret]. unfold report, dataset_len. rewrite Hds.
  cbn [length Z.of_nat]. rewrite truediv_zero. eauto.
Qed.

(** The toy world with nothing to evaluate on. *)
Lemma test_empty_dataset_witness :
  dl_dataset {| dl_dataset := @nil (Image toy * Z); dl_batch_size := 1000;
                dl_shuffle := false |} = []
  /\ shuffles_properly toy
  /\ exists s',
       test toy Cpu {| dl_dataset := []; dl_batch_size := 1000; dl_shuffle := false |}
         0 (stale toy 0 0 0)
       = (Raise ZeroDivisionError, s', []).
Proof.
  split; [reflexivity|]. split; [apply toy_world_shuffles|].
  exact (test_empty_dataset toy Cpu
           {| dl_dataset := []; dl_batch_size := 1000; dl_shuffle := false |}
           0 (stale toy 0 0 0) eq_refl (toy_world_shuffles false false false)).
Defined.

(** On an empty training set [train] raises ZeroDivisionError at
    [train_loss /= len(train_loader.dataset)], having updated nothing,
    printed nothing and sent nothing to the tracker. *)
Theorem train_empty_dataset (W : Torch) (args : Args) (dev : device)
    (dl : DataLoader W) (epoch : Z) (s : State W) :
  dl_dataset dl = [] -> shuffles_properly W ->
  exists s',
    train W args dev dl epoch s = (Raise ZeroDivisionError, s', [])
    /\ st_params s' = st_params s
    /\ st_opt s' = st_opt s
    /\ st_grads s' = st_grads s.
Proof.
  intros Hds Hperm. rewrite train_eq.
  pose proof (pass_empty W dl (set_training W true s) Hds Hperm) as Hp.
  pose proof (pass_state W dl (set_training W true s)
                (fun s => (st_params s, st_opt s, st_grads s))
                (fun _ _ => eq_refl)) as Hs1.
  destruct (pass W dl _) as [bs s1]. simpl in Hp, Hs1. subst bs.
  cbn [train_batches ret].
  pose proof (pass_empty W dl s1 Hds Hperm) as Hp2.
  pose proof (pass_state W dl s1
                (fun s => (st_params s, st_opt s, st_grads s))
                (fun _ _ => eq_refl)) as Hs2.
  destruct (pass W dl s1) as [bs' s2]. simpl in Hp2, Hs2. subst bs'.
  cbn [eval_batches ret]. unfold dataset_len. rewrite Hds.
  cbn [length Z.of_nat]. rewrite truediv_zero.
  exists s2. split; [reflexivity|].
  rewrite Hs1 in Hs2. now injection Hs2 as -> -> ->.
Qed.

(** The toy world with nothing to train on. *)
Lemma train_empty_dataset_witness :
  dl_dataset {| dl_dataset := @nil (Image toy * Z); dl_batch_size := 64;
                dl_shuffle := false |} = []
  /\ shuffles_properly toy
  /\ exists s',
       train toy (train_args 10 false) Cpu
         {| dl_dataset := []; dl_batch_size := 64; dl_shuffle := false |}
         0 (stale toy 0 0 0)
       = (Raise ZeroDivisionError, s', [])
       /\ st_params s' = st_params (stale toy 0 0 0)
       /\ st_opt s' = st_opt (stale toy 0 0 0)
       /\ st_grads s' = st_grads (stale toy 0 0 0).
Proof.
  split; [reflexivity|]. split; [apply toy_world_shuffles|].
  exact (train_empty_dataset toy (train_args 10 false) Cpu
           {| dl_dataset := []; dl_batch_size := 64; dl_shuffle := false |}
           0 (stale toy 0 0 0) eq_refl (toy_world_shuffles false false false)).
Defined.

(** ** What [test] writes *)


(** ** A learning rate the optimizer rejects *)

Lemma negative_not_accepted l : fltb l f0 = true -> fleb f0 l = false.
Proof. destruct l as [[]|[]| |[] m e]; cbv; intros H; congruence. Qed.

Lemma nan_not_accepted l : is_nan l = true -> fleb f0 l = false.
Proof. destruct l; cbv; intros H; congruence. Qed.

(** Handed a learning rate that is NaN or below zero, [objective]
    raises ValueError when it builds the optimizer: before a tracker
    session is opened and before anything is written. *)
Theorem objective_rejects_learning_rate (W : Torch) (trial : Trial) (s : State W) :
  is_nan (suggest_float trial "learning_rate" 0 1) = true
  \/ fltb (suggest_float trial "learning_rate" 0 1) f0 = true ->
  exists s', objective W trial s = (Raise ValueError, s', []).
Proof.
  intros H. apply objective_rejects.
  destruct H as [H|H]; [apply nan_not_accepted|apply negative_not_accepted];
    exact H.
Qed.

(** A NaN learning rate in the toy world. *)
Lemma objective_rejects_learning_rate_witness :
  (is_nan (suggest_float (proposal 3 S754_nan) "learning_rate" 0 1) = true
   \/ fltb (suggest_float (proposal 3 S754_nan) "learning_rate" 0 1) f0 = true)
  /\ exists s',
       objective toy (proposal 3 S754_nan) (stale toy 0 0 0)
       = (Raise ValueError, s', []).
Proof.
  split; [left; reflexivity|].
  exact (objective_rejects_learning_rate toy (proposal 3 S754_nan)
           (stale toy 0 0 0) (or_introl eq_refl)).
Defined.

(** ** One pass over a loader *)

Section BatchUp.
Context {A : Type}.

Lemma batch_up_concat (b : nat) (l : list A) :
  forall acc, concat (batch_up b acc l) = rev acc ++ l.
Proof.
  induction l as [|x l IH]; intros acc.
  - simpl. destruct acc; simpl; now rewrite ?app_nil_r.
  - cbn [batch_up]. destruct (S (length acc) =? b)%nat.
    + cbn [concat]. rewrite IH. simpl. now rewrite <- app_assoc.
    + rewrite IH. simpl. now rewrite <- app_assoc.
Qed.

Lemma batch_up_sizes (b : nat) (l : list A) :
  forall acc,
    (length acc < b)%nat ->
    Forall (fun x => (0 < length x <= b)%nat) (batch_up b acc l).
Proof.
  induction l as [|x l IH]; intros acc Hacc.
  - simpl. destruct acc as [|a acc]; constructor; [|constructor].
    rewrite length_rev. simpl in *. lia.
  - cbn [batch_up]. destruct (S (length acc) =? b)%nat eqn:Hb.
    + apply Nat.eqb_eq in Hb. constructor.
      * rewrite length_rev. simpl. lia.
      * apply IH. simpl. lia.
    + apply Nat.eqb_neq in Hb. apply IH. simpl. lia.
Qed.

Lemma fetch_concat (ds : list A) (ixs : list (list nat)) :
  fetch ds (concat ixs) = concat (map (fetch ds) ixs).
Proof.
  induction ixs as [|ix ixs IH]; [reflexivity|].
  simpl. now rewrite fetch_app, IH.
Qed.

Lemma fetch_Permutation (ds : list A) (ix1 ix2 : list nat) :
  ix1 ≡ₚ ix2 -> fetch ds ix1 ≡ₚ fetch ds ix2.
Proof.
  induction 1 as [|i ix1 ix2 _ IH|i j ix|ix1 ix2 ix3 _ IH1 _ IH2].
  - reflexivity.
  - simpl. destruct (ds !! i); [now constructor|exact IH].
  - simpl. destruct (ds !! i), (ds !! j); try reflexivity. apply perm_swap.
  - now transitivity (fetch ds ix2).
Qed.

Lemma fetch_length_le (ds : list A) (ix : list nat) :
  (length (fetch ds ix) <= length ix)%nat.
Proof.
  induction ix as [|i ix IH]; [reflexivity|]. simpl.
  destruct (ds !! i); simpl; lia.
Qed.

End BatchUp.

Lemma fetch_all {A} (ds : list A) : fetch ds (seq 0 (length ds)) = ds.
Proof. exact (fetch_seq ds []). Qed.

Section Pass.
Context (W : Torch).

(** The indices one pass walks: a permutation of [0 .. n-1]. *)
Lemma pass_batches (dl : DataLoader W) (s : State W) :
  shuffles_properly W ->
  exists ix,
    ix ≡ₚ seq 0 (length (dl_dataset dl))
    /\ (dl_shuffle dl = false -> ix = seq 0 (length (dl_dataset dl)))
    /\ fst (pass W dl s)
       = map (fun b => collate W (fetch (dl_dataset dl) b))
           (batch_up (dl_batch_size dl) [] ix).
Proof.
  intros Hperm. unfold pass, iterate. destruct (dl_shuffle dl).
  - specialize (Hperm (st_rng s) (length (dl_dataset dl))).
    destruct (randperm W (st_rng s) _) as [p g]. simpl in *.
    exists p. repeat split; [exact Hperm|discriminate].
  - eexists. repeat split; reflexivity.
Qed.

Lemma valid_indices (n : nat) (ix : list nat) :
  ix ≡ₚ seq 0 n -> Forall (fun i => (i < n)%nat) ix.
Proof. intros H. rewrite H. apply seq_in_range. Qed.

End Pass.

Lemma pass_chunks (W : Torch) (dl : DataLoader W) (s : State W) :
  shuffles_properly W -> (0 < dl_batch_size dl)%nat ->
  exists chunks : list (list (example W)),
    fst (pass W dl s) = map (collate W) chunks
    /\ concat chunks ≡ₚ dl_dataset dl
    /\ (dl_shuffle dl = false -> concat chunks = dl_dataset dl)
    /\ Forall (fun c => (0 < length c <= dl_batch_size dl)%nat) chunks.
Proof.
  intros Hperm Hb.
  destruct (pass_batches W dl s Hperm) as (ix & Hix & Hord & Hbs).
  exists (map (fetch (dl_dataset dl)) (batch_up (dl_batch_size dl) [] ix)).
  split; [now rewrite Hbs, map_map|].
  rewrite <- fetch_concat, batch_up_concat. cbn [rev app].
  split; [|split].
  - rewrite (fetch_Permutation _ _ _ Hix). now rewrite fetch_all.
  - intros Hs. rewrite (Hord Hs). apply fetch_all.
  - rewrite fetch_batch_up; [|constructor|exact (valid_indices _ _ Hix)].
    cbn [fetch]. apply batch_up_sizes. simpl. lia.
Qed.

(** One pass over a loader hands out every example of its dataset
    exactly once, in batches none of which is empty or holds more than
    [batch_size] examples; a loader that does not shuffle hands them out
    in the order of the dataset.  (A shuffling loader is assumed to draw
    a permutation.) *)
Theorem pass_hands_out_dataset (W : Torch) (dl : DataLoader W) (s : State W) :
  shuffles_properly W -> (0 < dl_batch_size dl)%nat ->
  exists chunks : list (list (example W)),
    fst (pass W dl s) = map (collate W) chunks
    /\ concat chunks ≡ₚ dl_dataset dl
    /\ (dl_shuffle dl = false -> concat chunks = dl_dataset dl)
    /\ Forall (fun c => (0 < length c <= dl_batch_size dl)%nat) chunks.
Proof. exact (pass_chunks W dl s). Qed.

(** The training loader of the toy world. *)
Lemma pass_hands_out_dataset_witness :
  shuffles_properly toy
  /\ (0 < dl_batch_size (objective_train_loader toy (proposal 3 f0_5)))%nat
  /\ exists chunks : list (list (example toy)),
       fst (pass toy (objective_train_loader toy (proposal 3 f0_5)) (stale toy 0 0 0))
       = map (collate toy) chunks
       /\ concat chunks ≡ₚ dl_dataset (objective_train_loader toy (proposal 3 f0_5))
       /\ (dl_shuffle (objective_train_loader toy (proposal 3 f0_5)) = false ->
           concat chunks = dl_dataset (objective_train_loader toy (proposal 3 f0_5)))
       /\ Forall (fun c => (0 < length c
                            <= dl_batch_size (objective_train_loader toy (proposal 3 f0_5)))%nat)
            chunks.
Proof.
  assert (Hb : (0 < dl_batch_size (objective_train_loader toy (proposal 3 f0_5)))%nat)
    by (cbn [dl_batch_size objective_train_loader]; lia).
  split; [apply toy_world_shuffles|]. split; [exact Hb|].
  exact (pass_hands_out_dataset toy (objective_train_loader toy (proposal 3 f0_5))
           (stale toy 0 0 0) (toy_world_shuffles false false false) Hb).
Defined.

(** ** The evaluation loop *)

Lemma count_eq_bounds pred target :
  0 <= count_eq pred target <= Z.of_nat (length target).
Proof.
  revert target. induction pred as [|p pred IH]; intros [|t target]; simpl; try lia.
  specialize (IH target). destruct (p =? t); lia.
Qed.

Lemma count_eq_app p1 t1 p2 t2 :
  length p1 = length t1 ->
  count_eq (p1 ++ p2) (t1 ++ t2) = count_eq p1 t1 + count_eq p2 t2.
Proof.
  revert t1. induction p1 as [|p p1 IH]; intros [|t t1] H; try discriminate H.
  - reflexivity.
  - simpl. injection H as H. rewrite (IH _ H). lia.
Qed.

Lemma batch_up_nonempty {A} (b : nat) (l : list A) :
  forall acc, acc <> [] \/ l <> [] -> batch_up b acc l <> [].
Proof.
  induction l as [|x l IH]; intros acc H.
  - destruct acc; [destruct H; congruence|discriminate].
  - cbn [batch_up]. destruct (S (length acc) =? b)%nat; [discriminate|].
    apply IH. left. discriminate.
Qed.

Section EvalLoop.
Context (W : Torch).

Lemma sum_losses_fold outs : sum_losses W outs = fold_left (add_loss W) outs f0.
Proof. reflexivity. Qed.

(** The loop started on a float: if it returns, every forward pass
    succeeded, the loss is the running sum and the count has grown by
    the right predictions of each batch. *)
Lemma eval_batches_Float bs :
  forall a c s l c' s' o,
    eval_batches W (Float a) c bs s = (Ok (l, c'), s', o) ->
    l = Float (fold_left (add_loss W) (forward_passes W s bs) a)
    /\ c' = c + right_predictions W (forward_passes W s bs)
    /\ map snd (forward_passes W s bs) = map snd bs.
Proof.
  induction bs as [|[data target] bs IH]; intros a c s l c' s' o H.
  - injection H as <- <- _ _. simpl. repeat split. lia.
  - cbn [eval_batches] in H. unfold bind, model_call, lift in H.
    cbn [forward_passes].
    destruct (forward W _ _ _ _ _) as [[output|e] g]; [|discriminate].
    cbn [add lift2 as_num] in H.
    destruct (eval_batches _ _ _ _ _) as [[r2 s2] o2] eqn:Hrest.
    injection H as -> -> _.
    apply IH in Hrest. destruct Hrest as (-> & -> & Ht).
    cbn [fold_left right_predictions fold_right map fst snd].
    rewrite Ht. repeat split. unfold right_predictions. lia.
Qed.

(** The first batch turns the int 0 the loop starts on into a float. *)
Lemma eval_batches_Int0 b bs c s :
  eval_batches W (Int 0) c (b :: bs) s = eval_batches W (Float f0) c (b :: bs) s.
Proof. destruct b as [data target]. reflexivity. Qed.

(** When no forward pass fails the loop returns. *)
Lemma eval_batches_returns bs :
  forward_succeeds W ->
  forall a c s, exists l c' s',
    eval_batches W (Float a) c bs s = (Ok (l, c'), s', []).
Proof.
  intros Hfw. induction bs as [|[data target] bs IH]; intros a c s.
  - do 3 eexists. reflexivity.
  - cbn [eval_batches]. unfold bind, model_call, lift.
    destruct (Hfw (st_params s) (st_training s) false (st_rng s) data) as [output Ho].
    destruct (forward W _ _ _ _ _) as [r g]. simpl in Ho. subst r.
    cbn [add lift2 as_num].
    destruct (IH (fadd a (nll_loss W Sum output target))
                 (c + count_eq (argmax W output) target) (set_rng W g s))
      as (l & c' & s' & ->).
    do 3 eexists. reflexivity.
Qed.

Lemma right_predictions_bounds outs :
  0 <= right_predictions W outs <= Z.of_nat (length (concat (map snd outs))).
Proof.
  induction outs as [|[out t] outs IH]; simpl; [lia|].
  rewrite length_app. pose proof (count_eq_bounds (argmax W out) t). lia.
Qed.

(** With one prediction per image, counting batch by batch is counting
    over all examples. *)
Lemma forward_passes_shapes bs :
  one_prediction_per_image W ->
  forall s,
    Forall (fun b : batch W => length (fst b) = length (snd b)) bs ->
    Forall (fun ot => length (argmax W (fst ot)) = length (snd ot))
      (forward_passes W s bs).
Proof.
  intros Hshape. induction bs as [|[data target] bs IH]; intros s Hbs.
  - constructor.
  - cbn [forward_passes]. inversion Hbs as [|? ? Hb Hbs']; subst. simpl in Hb.
    destruct (forward W _ _ _ _ _) as [[output|e] g] eqn:Hf; [|constructor].
    constructor; [|apply IH; exact Hbs'].
    simpl. rewrite <- Hb. eapply Hshape. rewrite Hf. reflexivity.
Qed.

Lemma right_predictions_count outs :
  Forall (fun ot => length (argmax W (fst ot)) = length (snd ot)) outs ->
  right_predictions W outs = count_correct W outs.
Proof.
  unfold count_correct. induction 1 as [|[out t] outs Hot _ IH]; [reflexivity|].
  simpl in *. rewrite count_eq_app by exact Hot. now rewrite IH.
Qed.

(** The targets of the batches of one pass are as many as the examples
    of the dataset. *)
Lemma pass_targets (dl : DataLoader W) (s : State W) :
  shuffles_properly W ->
  length (concat (map snd (fst (pass W dl s)))) = length (dl_dataset dl)
  /\ Forall (fun b : batch W => length (fst b) = length (snd b)) (fst (pass W dl s))
  /\ (dl_dataset dl <> [] -> fst (pass W dl s) <> []).
Proof.
  intros Hperm.
  destruct (pass_batches W dl s Hperm) as (ix & Hix & _ & ->).
  split; [|split].
  - assert (H1 : forall bl : list (list nat),
              length (concat (map snd
                (map (fun b => collate W (fetch (dl_dataset dl) b)) bl)))
              = length (fetch (dl_dataset dl) (concat bl))).
    { induction bl as [|b bl IH]; [reflexivity|].
      cbn [map concat collate snd]. rewrite fetch_app, !length_app, IH.
      now rewrite length_map. }
    rewrite H1, batch_up_concat. cbn [rev app].
    rewrite fetch_length by exact (valid_indices _ _ Hix).
    rewrite (Permutation_length Hix). apply length_seq.
  - apply Forall_forall. intros b Hb. apply list_elem_of_fmap in Hb.
    destruct Hb as (c & -> & _). simpl. now rewrite !length_map.
  - intros Hds Hnil. apply map_eq_nil in Hnil.
    apply (batch_up_nonempty (dl_batch_size dl) ix []); [|exact Hnil].
    right. intros ->. apply Permutation_nil_l in Hix.
    destruct (dl_dataset dl); [congruence|discriminate].
Qed.

End EvalLoop.

Lemma fold_add_loss_nan (W : Torch) (outs : list (Tensor W * list Z)) :
  forall a,
    is_nan a = true
    \/ Exists (fun ot => is_nan (nll_loss W Sum (fst ot) (snd ot)) = true) outs ->
    fold_left (add_loss W) outs a = S754_nan.
Proof.
  induction outs as [|ot outs IH]; intros a [Ha|Hex].
  - now destruct a.
  - inversion Hex.
  - simpl. apply IH. left. destruct a; try discriminate Ha. reflexivity.
  - simpl. apply IH. inversion Hex as [? ? Hot|? ? Hrest]; subst.
    + left. unfold add_loss.
      destruct (nll_loss W Sum (fst ot) (snd ot)); try discriminate Hot.
      now rewrite fadd_nan_r.
    + right. exact Hrest.
Qed.

Lemma truediv_nan n v : truediv (Float S754_nan) (Int n) = Ok v -> v = Float S754_nan.
Proof.
  unfold truediv, lift2, float_truediv, as_num.
  destruct (float_of_int n) as [y|e]; [|discriminate].
  destruct (is_zero y); [discriminate|]. now intros [= <-].
Qed.

(** ** The mean loss and the count of the evaluator *)

(** What [test] computes when nothing fails (the forward pass succeeds
    and predicts one class per image, a shuffling loader draws a
    permutation) on an evaluation set of at least one and fewer than
    2^53 examples.  It returns the batch losses, added up in the order
    of the batches, divided by the number of examples of the dataset;
    the count it prints is the number of examples, over all batches,
    whose predicted class is the target, which lies between 0 and the
    number of examples; the percentage it prints is [100.0 * correct]
    divided by that number. *)
Theorem test_mean_loss (W : Torch) (dev : device) (dl : DataLoader W)
    (epoch : Z) (s : State W) :
  forward_succeeds W -> one_prediction_per_image W -> shuffles_properly W ->
  0 < dataset_len W dl < 2 ^ 53 ->
  let outs := forward_passes W (snd (pass W dl (set_training W false s)))
                (fst (pass W dl (set_training W false s))) in
  let n := dataset_len W dl in
  let mean := Float (fdiv (sum_losses W outs) (Z2SF n)) in
  let correct := count_correct W outs in
  map snd outs = map snd (fst (pass W dl (set_training W false s)))
  /\ 0 <= correct <= n
  /\ exists s',
       test W dev dl epoch s
       = (Ok mean, s',
          [PrintTest mean correct n (Float (fdiv (fmul f100 (Z2SF correct)) (Z2SF n)));
           WandbLog {[ "test_loss" := VNum mean ]}]).
Proof.
  intros Hfw Hshape Hperm Hn. cbv zeta. rewrite test_eq.
  destruct (pass_targets W dl (set_training W false s) Hperm) as (Hlen & Hpairs & Hne).
  destruct (pass W dl (set_training W false s)) as [bs s1].
  cbn [fst snd] in *.
  assert (Hds : dl_dataset dl <> []).
  { intros H. unfold dataset_len in Hn. rewrite H in Hn. simpl in Hn. lia. }
  destruct bs as [|b bs]; [now apply Hne in Hds|].
  rewrite eval_batches_Int0.
  destruct (eval_batches_returns W (b :: bs) Hfw f0 0 s1) as (l & c' & s' & He).
  rewrite He. apply eval_batches_Float in He. destruct He as (-> & -> & Ht).
  rewrite (right_predictions_count W _ (forward_passes_shapes W _ Hshape s1 Hpairs)).
  pose proof (right_predictions_bounds W (forward_passes W s1 (b :: bs))) as Hb.
  rewrite (right_predictions_count W _ (forward_passes_shapes W _ Hshape s1 Hpairs)) in Hb.
  rewrite Ht, Hlen in Hb. fold (dataset_len W dl) in Hb.
  split; [exact Ht|]. split; [lia|].
  exists s'. unfold report. rewrite Z.add_0_l.
  rewrite truediv_Float_Int by exact Hn.
  rewrite mul_Float_Int by lia.
  rewrite truediv_Float_Int by exact Hn.
  reflexivity.
Qed.

Lemma toy_forward_succeeds cuda nan : forward_succeeds (toy_world cuda false nan).
Proof. intros p tr gr g xs. simpl. eauto. Qed.

Lemma toy_one_prediction cuda fails nan :
  one_prediction_per_image (toy_world cuda fails nan).
Proof.
  intros p tr gr g xs output. simpl. destruct fails; [discriminate|].
  intros [= <-]. apply length_map.
Qed.

(** The evaluation set of the toy world. *)
Lemma test_mean_loss_witness :
  forward_succeeds toy /\ one_prediction_per_image toy /\ shuffles_properly toy
  /\ 0 < dataset_len toy (objective_test_loader toy (proposal 3 f0_5)) < 2 ^ 53
  /\ exists s',
       test toy Cpu (objective_test_loader toy (proposal 3 f0_5)) 0 (stale toy 0 0 0)
       = (Ok (Float (fdiv (sum_losses toy
                 (forward_passes toy
                    (snd (pass toy (objective_test_loader toy (proposal 3 f0_5))
                            (set_training toy false (stale toy 0 0 0))))
                    (fst (pass toy (objective_test_loader toy (proposal 3 f0_5))
                            (set_training toy false (stale toy 0 0 0))))))
               (Z2SF (dataset_len toy (objective_test_loader toy (proposal 3 f0_5)))))),
          s',
          [PrintTest
             (Float (fdiv (sum_losses toy
                 (forward_passes toy
                    (snd (pass toy (objective_test_loader toy (proposal 3 f0_5))
                            (set_training toy false (stale toy 0 0 0))))
                    (fst (pass toy (objective_test_loader toy (proposal 3 f0_5))
                            (set_training toy false (stale toy 0 0 0))))))
               (Z2SF (dataset_len toy (objective_test_loader toy (proposal 3 f0_5))))))
             (count_correct toy
                (forward_passes toy
                   (snd (pass toy (objective_test_loader toy (proposal 3 f0_5))
                           (set_training toy false (stale toy 0 0 0))))
                   (fst (pass toy (objective_test_loader toy (proposal 3 f0_5))
                           (set_training toy false (stale toy 0 0 0))))))
             (dataset_len toy (objective_test_loader toy (proposal 3 f0_5)))
             (Float (fdiv (fmul f100 (Z2SF (count_correct toy
                (forward_passes toy
                   (snd (pass toy (objective_test_loader toy (proposal 3 f0_5))
                           (set_training toy false (stale toy 0 0 0))))
                   (fst (pass toy (objective_test_loader toy (proposal 3 f0_5))
                           (set_training toy false (stale toy 0 0 0))))))))
               (Z2SF (dataset_len toy (objective_test_loader toy (proposal 3 f0_5))))));
           WandbLog {[ "test_loss" := VNum
             (Float (fdiv (sum_losses toy
                 (forward_passes toy
                    (snd (pass toy (objective_test_loader toy (proposal 3 f0_5))
                            (set_training toy false (stale toy 0 0 0))))
                    (fst (pass toy (objective_test_loader toy (proposal 3 f0_5))
                            (set_training toy false (stale toy 0 0 0))))))
               (Z2SF (dataset_len toy (objective_test_loader toy (proposal 3 f0_5)))))) ]}]).
Proof.
  assert (Hn : 0 < dataset_len toy (objective_test_loader toy (proposal 3 f0_5)) < 2 ^ 53)
    by (split; reflexivity).
  split; [apply toy_forward_succeeds|]. split; [apply toy_one_prediction|].
  split; [apply toy_world_shuffles|]. split; [exact Hn|].
  exact (proj2 (proj2 (test_mean_loss toy Cpu (objective_test_loader toy (proposal 3 f0_5))
           0 (stale toy 0 0 0) (toy_forward_succeeds false false)
           (toy_one_prediction false false false)
           (toy_world_shuffles false false false) Hn))).
Defined.

(** The count of right predictions that [test] prints never exceeds the
    number of examples it prints next to it, and that number is the
    size of the evaluation set, whatever the model predicts.  (A
    shuffling loader is assumed to draw a permutation.) *)
Theorem test_counts_at_most_all (W : Torch) (dev : device) (dl : DataLoader W)
    (epoch : Z) (s : State W) :
  shuffles_properly W ->
  forall loss correct total pct,
    In (PrintTest loss correct total pct) (snd (test W dev dl epoch s)) ->
    total = dataset_len W dl /\ 0 <= correct <= total.
Proof.
  intros Hperm loss correct total pct. rewrite test_eq.
  destruct (pass_targets W dl (set_training W false s) Hperm) as (Hlen & _ & _).
  destruct (pass W dl (set_training W false s)) as [bs s1]. cbn [fst] in Hlen.
  destruct (eval_batches W (Int 0) 0 bs s1) as [[[[l c]|e] s2] o] eqn:He;
    [|intros []].
  destruct (report l c (dataset_len W dl)) as [[mean p]|e]; [|intros []].
  intros [H|[H|[]]]; [|discriminate H]. injection H as _ <- <- _.
  split; [reflexivity|].
  destruct bs as [|b bs].
  - injection He as _ <- _ _. unfold dataset_len. lia.
  - rewrite eval_batches_Int0 in He. apply eval_batches_Float in He.
    destruct He as (_ & -> & Ht).
    pose proof (right_predictions_bounds W (forward_passes W s1 (b :: bs))) as Hb.
    rewrite Ht, Hlen in Hb. unfold dataset_len. lia.
Qed.

(** The toy world's summary line. *)
Lemma test_counts_at_most_all_witness :
  shuffles_properly toy
  /\ forall loss correct total pct,
       In (PrintTest loss correct total pct)
         (snd (test toy Cpu (objective_test_loader toy (proposal 3 f0_5)) 0
                 (stale toy 0 0 0))) ->
       total = dataset_len toy (objective_test_loader toy (proposal 3 f0_5))
       /\ 0 <= correct <= total.
Proof.
  split; [apply toy_world_shuffles|].
  exact (test_counts_at_most_all toy Cpu (objective_test_loader toy (proposal 3 f0_5))
           0 (stale toy 0 0 0) (toy_world_shuffles false false false)).
Defined.

(** ** A NaN loss *)

Section NaN.
Context (W : Torch).

Lemma test_Ok_nan dev dl epoch s v s' o :
  test W dev dl epoch s = (Ok v, s', o) ->
  Exists (fun ot => is_nan (nll_loss W Sum (fst ot) (snd ot)) = true)
    (forward_passes W (snd (pass W dl (set_training W false s)))
       (fst (pass W dl (set_training W false s)))) ->
  v = Float S754_nan.
Proof.
  rewrite test_eq. destruct (pass W dl (set_training W false s)) as [bs s1].
  cbn [fst snd].
  destruct (eval_batches W (Int 0) 0 bs s1) as [[[[l c]|e] s2] o2] eqn:He;
    [|discriminate].
  destruct (report l c (dataset_len W dl)) as [[mean p]|e] eqn:Hr; [|discriminate].
  intros [= <- _ _] Hex.
  destruct bs as [|b bs]; [inversion Hex|].
  rewrite eval_batches_Int0 in He. apply eval_batches_Float in He.
  destruct He as (-> & _ & _).
  rewrite (fold_add_loss_nan W _ f0 (or_intror Hex)) in Hr.
  unfold report in Hr.
  destruct (truediv (Float S754_nan) _) as [m|] eqn:Hm; [|discriminate].
  apply truediv_nan in Hm. subst m.
  destruct (mul _ _); [|discriminate]. destruct (truediv _ _); [|discriminate].
  now injection Hr as <- _.
Qed.

(** When every loss is NaN, every pass that succeeds yields one. *)
Lemma forward_passes_all_nan s bs :
  (forall out t, is_nan (nll_loss W Sum out t) = true) ->
  forward_passes W s bs <> [] ->
  Exists (fun ot => is_nan (nll_loss W Sum (fst ot) (snd ot)) = true)
    (forward_passes W s bs).
Proof.
  intros Hnan Hne. destruct (forward_passes W s bs) as [|ot outs]; [congruence|].
  constructor. apply Hnan.
Qed.

End NaN.

(** A NaN batch loss is not detected: if one batch of the evaluation set
    has a NaN loss and [test] returns, the mean loss it returns, prints
    and sends to the tracker is NaN. *)
Theorem nan_batch_loss_poisons_mean (W : Torch) (dev : device)
    (dl : DataLoader W) (epoch : Z) (s : State W) (v : num) (s' : State W)
    (o : list event) :
  test W dev dl epoch s = (Ok v, s', o) ->
  Exists (fun ot => is_nan (nll_loss W Sum (fst ot) (snd ot)) = true)
    (forward_passes W (snd (pass W dl (set_training W false s)))
       (fst (pass W dl (set_training W false s)))) ->
  v = Float S754_nan
  /\ exists correct pct,
       o = [PrintTest (Float S754_nan) correct (dataset_len W dl) pct;
            WandbLog {[ "test_loss" := VNum (Float S754_nan) ]}].
Proof.
  intros H Hex. pose proof (test_Ok_nan W _ _ _ _ _ _ _ H Hex) as ->.
  split; [reflexivity|].
  apply test_Ok in H. destruct H as (f & correct & pct & _ & ->). eauto.
Qed.

Lemma triple_eta_Ok {A B C} (x : result A * B * C) (a : A) :
  fst (fst x) = Ok a -> x = (Ok a, snd (fst x), snd x).
Proof. destruct x as [[r b] c]. simpl. now intros ->. Qed.

(** The toy world whose loss is NaN. *)
Lemma nan_batch_loss_poisons_mean_witness :
  test toy_nan Cpu (objective_test_loader toy_nan (proposal 3 f0_5)) 0
    (stale toy_nan 0 0 0)
  = (Ok (Float S754_nan),
     snd (fst (test toy_nan Cpu (objective_test_loader toy_nan (proposal 3 f0_5)) 0
                 (stale toy_nan 0 0 0))),
     snd (test toy_nan Cpu (objective_test_loader toy_nan (proposal 3 f0_5)) 0
            (stale toy_nan 0 0 0)))
  /\ Exists (fun ot => is_nan (nll_loss toy_nan Sum (fst ot) (snd ot)) = true)
       (forward_passes toy_nan
          (snd (pass toy_nan (objective_test_loader toy_nan (proposal 3 f0_5))
                  (set_training toy_nan false (stale toy_nan 0 0 0))))
          (fst (pass toy_nan (objective_test_loader toy_nan (proposal 3 f0_5))
                  (set_training toy_nan false (stale toy_nan 0 0 0)))))
  /\ exists correct pct,
       snd (test toy_nan Cpu (objective_test_loader toy_nan (proposal 3 f0_5)) 0
              (stale toy_nan 0 0 0))
       = [PrintTest (Float S754_nan) correct
            (dataset_len toy_nan (objective_test_loader toy_nan (proposal 3 f0_5))) pct;
          WandbLog {[ "test_loss" := VNum (Float S754_nan) ]}].
Proof.
  assert (H1 : test toy_nan Cpu (objective_test_loader toy_nan (proposal 3 f0_5)) 0
                 (stale toy_nan 0 0 0)
               = (Ok (Float S754_nan),
                  snd (fst (test toy_nan Cpu
                              (objective_test_loader toy_nan (proposal 3 f0_5)) 0
                              (stale toy_nan 0 0 0))),
                  snd (test toy_nan Cpu
                         (objective_test_loader toy_nan (proposal 3 f0_5)) 0
                         (stale toy_nan 0 0 0))))
    by (apply triple_eta_Ok; vm_compute; reflexivity).
  assert (H2 : Exists (fun ot => is_nan (nll_loss toy_nan Sum (fst ot) (snd ot)) = true)
       (forward_passes toy_nan
          (snd (pass toy_nan (objective_test_loader toy_nan (proposal 3 f0_5))
                  (set_training toy_nan false (stale toy_nan 0 0 0))))
          (fst (pass toy_nan (objective_test_loader toy_nan (proposal 3 f0_5))
                  (set_training toy_nan false (stale toy_nan 0 0 0))))))
    by (apply forward_passes_all_nan; [reflexivity|discriminate]).
  split; [exact H1|]. split; [exact H2|].
  exact (proj2 (nan_batch_loss_poisons_mean toy_nan Cpu
                  (objective_test_loader toy_nan (proposal 3 f0_5)) 0
                  (stale toy_nan 0 0 0) _ _ _ H1 H2)).
Defined.

(** A model whose losses are all NaN does not make [objective] fail: a
    run of one epoch or more that returns, returns NaN as the trial's
    loss.  (The evaluation set is not empty and a shuffling loader draws
    a permutation.) *)
Theorem objective_returns_nan (W : Torch) (trial : Trial) (s : State W)
    (v : num) (s' : State W) (o : list event) :
  (forall out t, is_nan (nll_loss W Sum out t) = true) ->
  shuffles_properly W ->
  mnist W false <> [] ->
  1 <= suggest_int trial "epochs" 3 30 ->
  objective W trial s = (Ok v, s', o) ->
  v = Float S754_nan.
Proof.
  intros Hnan Hperm Hds He H.
  destruct (fleb f0 (lr (objective_args trial))) eqn:Hlr.
  2:{ destruct (objective_rejects W trial s Hlr) as [t Ht]. congruence. }
  rewrite (objective_unfold W trial s Hlr) in H.
  change (epochs (objective_args trial)) with (suggest_int trial "epochs" 3 30) in H.
  replace (suggest_int trial "epochs" 3 30)
    with (suggest_int trial "epochs" 3 30 - 1 + 1) in H by lia.
  rewrite range_succ in H by lia.
  destruct (epoch_loop _ _ _ _ _ _ _ _) as [[[v'|e] s2] o2] eqn:Hloop;
    [|discriminate].
  injection H as -> _ _.
  apply epoch_loop_last in Hloop.
  destruct Hloop as (l1 & t1 & o1 & t2 & o3 & t3 & o4 & _ & _ & Htest & _ & _).
  apply (test_Ok_nan W _ _ _ _ _ _ _ Htest).
  apply forward_passes_all_nan; [exact Hnan|].
  destruct (pass_targets W (objective_test_loader W trial)
              (set_training W false t2) Hperm) as (_ & _ & Hne).
  specialize (Hne Hds).
  apply test_Ok in Htest as Hshape. clear Hshape.
  rewrite test_eq in Htest.
  destruct (pass W (objective_test_loader W trial) (set_training W false t2))
    as [bs s1]. cbn [fst snd] in *.
  destruct bs as [|b bs]; [congruence|].
  rewrite eval_batches_Int0 in Htest.
  destruct (eval_batches W (Float f0) 0 (b :: bs) s1) as [[[[l c]|e] s3] o5] eqn:Hev;
    [|discriminate].
  apply eval_batches_Float in Hev. destruct Hev as (_ & _ & Ht).
  intros Hnil. rewrite Hnil in Ht. destruct b. discriminate Ht.
Qed.

(** One epoch in the world whose loss is NaN. *)
Lemma objective_returns_nan_witness :
  (forall out t, is_nan (nll_loss toy_nan Sum out t) = true)
  /\ shuffles_properly toy_nan
  /\ mnist toy_nan false <> []
  /\ 1 <= suggest_int (proposal 1 f0_5) "epochs" 3 30
  /\ objective toy_nan (proposal 1 f0_5) (stale toy_nan 0 0 0)
     = (Ok (Float S754_nan),
        snd (fst (objective toy_nan (proposal 1 f0_5) (stale toy_nan 0 0 0))),
        snd (objective toy_nan (proposal 1 f0_5) (stale toy_nan 0 0 0))).
Proof.
  assert (H1 : forall out t, is_nan (nll_loss toy_nan Sum out t) = true)
    by reflexivity.
  assert (H2 : mnist toy_nan false <> []) by discriminate.
  assert (H3 : 1 <= suggest_int (proposal 1 f0_5) "epochs" 3 30)
    by (cbn [suggest_int proposal]; lia).
  assert (H4 : exists v, objective toy_nan (proposal 1 f0_5) (stale toy_nan 0 0 0)
     = (Ok v,
        snd (fst (objective toy_nan (proposal 1 f0_5) (stale toy_nan 0 0 0))),
        snd (objective toy_nan (proposal 1 f0_5) (stale toy_nan 0 0 0)))).
  { eexists. apply triple_eta_Ok. vm_compute. reflexivity. }
  split; [exact H1|]. split; [apply toy_world_shuffles|]. split; [exact H2|].
  split; [exact H3|].
  destruct H4 as [v H4].
  rewrite (objective_returns_nan toy_nan (proposal 1 f0_5) (stale toy_nan 0 0 0)
             v _ _ H1 (toy_world_shuffles false false true) H2 H3 H4) in H4.
  exact H4.
Defined.

(** ** The epoch loop as a machine *)

Section Machine.
Context (W : Torch) (args : Args) (dev : device) (trl tel : DataLoader W) (n : Z).

#[local] Abbreviation step := (machine_step W args dev trl tel n).

Lemma failed_stays k (c : machine W) x :
  at_phase c = Failed x -> Nat.iter k step c = c.
Proof.
  intros H. induction k as [|k IH]; [reflexivity|].
  simpl. rewrite IH. unfold machine_step. now rewrite H.
Qed.

Lemma three_steps {A} (f : A -> A) m x :
  Nat.iter (3 * S m) f x = Nat.iter (3 * m) f (f (f (f x))).
Proof.
  replace (3 * S m)%nat with (S (S (S (3 * m)))) by lia.
  now rewrite !Nat.iter_succ_r.
Qed.

Lemma step_training (c : machine W) e :
  at_phase c = Training e ->
  step c = match train W args dev trl e (store c) with
           | (Ok _, s, o) =>
               {| at_phase := Evaluating e; last_loss := last_loss c;
                  store := s; written := written c ++ o |}
           | (Raise x, s, o) =>
               {| at_phase := Failed x; last_loss := last_loss c;
                  store := s; written := written c ++ o |}
           end.
Proof. intros H. unfold machine_step. now rewrite H. Qed.

Lemma step_evaluating (c : machine W) e :
  at_phase c = Evaluating e ->
  step c = match test W dev tel e (store c) with
           | (Ok v, s, o) =>
               {| at_phase := Scheduling e; last_loss := v;
                  store := s; written := written c ++ o |}
           | (Raise x, s, o) =>
               {| at_phase := Failed x; last_loss := last_loss c;
                  store := s; written := written c ++ o |}
           end.
Proof. intros H. unfold machine_step. now rewrite H. Qed.

Lemma step_scheduling (c : machine W) e :
  at_phase c = Scheduling e ->
  step c = match scheduler_step W 1 (gamma args) (store c) with
           | (Ok _, s, o) =>
               {| at_phase := if e + 1 <? n then Training (e + 1) else Finished;
                  last_loss := last_loss c; store := s; written := written c ++ o |}
           | (Raise x, s, o) =>
               {| at_phase := Failed x; last_loss := last_loss c;
                  store := s; written := written c ++ o |}
           end.
Proof. intros H. unfold machine_step. now rewrite H. Qed.

Lemma machine_runs m :
  forall (k : nat) (c : machine W),
    at_phase c = match m with O => Finished | S _ => Training (Z.of_nat k) end ->
    n = Z.of_nat (k + m) ->
    let '(r, s', o) :=
      epoch_loop W args dev trl tel (map Z.of_nat (seq k m)) (last_loss c) (store c) in
    machine_outcome W (Nat.iter (3 * m) step c) = Some (r, s', written c ++ o)
    /\ (forall v, r = Ok v ->
        stations W step (3 * m) c
        = flat_map (fun e => [Training e; Evaluating e; Scheduling e])
            (map Z.of_nat (seq k m))).
Proof.
  induction m as [|m IH]; intros k c Hc Hn.
  - simpl. unfold machine_outcome. rewrite Hc, app_nil_r. auto.
  - cbn [seq map epoch_loop]. rewrite three_steps.
    replace (3 * S m)%nat with (S (S (S (3 * m)))) by lia. cbn [stations].
    rewrite Hc.
    remember (step c) as c1 eqn:E1. rewrite (step_training c _ Hc) in E1.
    unfold bind at 1.
    destruct (train W args dev trl (Z.of_nat k) (store c)) as [[[[]|x] s1] o1].
    2:{ subst c1. rewrite !(failed_stays _ _ x) by reflexivity.
        split; [reflexivity|discriminate]. }
    remember (step c1) as c2 eqn:E2.
    rewrite (step_evaluating c1 (Z.of_nat k)) in E2 by (now subst c1).
    replace (store c1) with s1 in E2 by (now subst c1).
    unfold bind at 1.
    destruct (test W dev tel (Z.of_nat k) s1) as [[[v|x] s2] o2].
    2:{ subst c2. rewrite !(failed_stays _ _ x) by reflexivity.
        subst c1. unfold machine_outcome. cbn [at_phase store written].
        rewrite app_assoc. split; [reflexivity|discriminate]. }
    remember (step c2) as c3 eqn:E3.
    rewrite (step_scheduling c2 (Z.of_nat k)) in E3 by (now subst c2).
    replace (store c2) with s2 in E3 by (now subst c2).
    unfold bind at 1.
    destruct (scheduler_step W 1 (gamma args) s2) as [[[[]|x] s3] o3] eqn:Hs;
      [|discriminate Hs].
    assert (o3 = []) as -> by (now injection Hs).
    specialize (IH (S k) c3).
    assert (Hc3 : at_phase c3
                  = match m with O => Finished | S _ => Training (Z.of_nat (S k)) end).
    { subst c3. cbn [at_phase]. destruct m.
      - replace (Z.of_nat k + 1 <? n) with false; [reflexivity|].
        symmetry. apply Z.ltb_ge. lia.
      - replace (Z.of_nat k + 1 <? n) with true; [f_equal; lia|].
        symmetry. apply Z.ltb_lt. lia. }
    specialize (IH Hc3 ltac:(lia)).
    replace (last_loss c3) with v in IH by (subst c3 c2 c1; reflexivity).
    replace (store c3) with s3 in IH by (subst c3 c2 c1; reflexivity).
    replace (written c3) with (((written c ++ o1) ++ o2) ++ []) in IH
      by (subst c3 c2 c1; reflexivity).
    destruct (epoch_loop W args dev trl tel (map Z.of_nat (seq (S k) m)) v s3)
      as [[r s4] o4].
    destruct IH as [IH1 IH2]. split.
    + rewrite IH1. do 2 f_equal. rewrite app_nil_r, <- !app_assoc. reflexivity.
    + intros w Hw. cbn [flat_map app]. rewrite (IH2 w Hw).
      replace (at_phase c1) with (Evaluating (Z.of_nat k)) by (now subst c1).
      replace (at_phase c2) with (Scheduling (Z.of_nat k)) by (now subst c2).
      reflexivity.
Qed.

End Machine.

(** The loop of [objective] over [range(n)] is the machine that runs the
    trainer of epoch 0, its evaluator, the scheduler, the trainer of
    epoch 1 and so on, and stops after the scheduler of epoch [n - 1] or
    at the first exception: after [3 n] steps the machine has stopped
    and hands back what the loop returns or raises, in the same state
    and having written the same events.  In a run that completes, the
    stations visited are the trainer, the evaluator and the scheduler of
    the epochs [0 .. n-1], in this order, [n] of each. *)
Theorem epoch_loop_is_machine (W : Torch) (args : Args) (dev : device)
    (trl tel : DataLoader W) (n : Z) (test_loss : num) (s : State W) :
  let step := machine_step W args dev trl tel n in
  machine_outcome W (Nat.iter (3 * Z.to_nat n) step (machine_start W n test_loss s))
  = Some (epoch_loop W args dev trl tel (range n) test_loss s)
  /\ (forall v s' o,
        epoch_loop W args dev trl tel (range n) test_loss s = (Ok v, s', o) ->
        stations W step (3 * Z.to_nat n) (machine_start W n test_loss s)
        = flat_map (fun e => [Training e; Evaluating e; Scheduling e]) (range n)).
Proof.
  intros step. subst step.
  destruct (Z_le_gt_dec n 0) as [Hn|Hn].
  - rewrite range_nonpos by exact Hn.
    replace (Z.to_nat n) with 0%nat by lia. simpl.
    unfold machine_outcome, machine_start. cbn [at_phase].
    replace (0 <? n) with false by (symmetry; apply Z.ltb_ge; lia). auto.
  - pose proof (machine_runs W args dev trl tel n (Z.to_nat n) 0
                  (machine_start W n test_loss s)) as H.
    assert (Hc : at_phase (machine_start W n test_loss s)
                 = match Z.to_nat n with
                   | O => Finished
                   | S _ => Training (Z.of_nat 0)
                   end).
    { unfold machine_start. cbn [at_phase].
      replace (0 <? n) with true by (symmetry; apply Z.ltb_lt; lia).
      destruct (Z.to_nat n) eqn:E; [lia|reflexivity]. }
    specialize (H Hc ltac:(lia)).
    unfold machine_start in H at 1 2. cbn [last_loss store] in H.
    fold (range n) in H.
    destruct (epoch_loop W args dev trl tel (range n) test_loss s) as [[r s'] o].
    destruct H as [H1 H2]. split.
    + rewrite H1. reflexivity.
    + intros v s2 o2 [= -> _ _]. exact (H2 v eq_refl).
Qed.

(** ** When [objective] returns *)

Section Returns.
Context (W : Torch).
Hypothesis forward_ok : forward_succeeds W.
Hypothesis perm_ok : shuffles_properly W.








End Returns.


